(** * Plaid -> PostgreSQL -> S3 pipeline: shallow embedding and properties

    Embedded sources:
    - [extrqct_upsert_accunt.py]                       (module [Basic])
    - [plaid_to_PostgreSQL_ETL_Detailed_Logging.py]    (module [Detailed])
    - [postgres_to_s3.py]                              (module [PgToS3])

    The Plaid client, the psycopg2 driver and the PostgreSQL server are
    collaborators of the scripts.  They are modelled explicitly (module
    [Pg] and the record [environment]): the Plaid endpoints as functions
    of the request, the driver and the server by the part of their
    behaviour the scripts rely on, namely the statement paging of
    [execute_values], the cursor's result set, primary-key conflict
    handling of [INSERT .. ON CONFLICT .. DO UPDATE], the foreign key of
    [transactions], commit, rollback and close.  Coercion of a value to
    its column type (VARCHAR length, DECIMAL scale) is outside the model:
    a cell is stored as the driver sends it. *)

From Stdlib Require Import ZArith Lia Bool Ascii String List.
From stdpp Require Import gmap strings list fin_maps.
Import ListNotations.
Local Open Scope string_scope.
Local Open Scope list_scope.
Local Open Scope Z_scope.

(* ===================================================================== *)
(** * Python values shared by the scripts                                 *)
(* ===================================================================== *)

(** Exceptions the scripts raise themselves or let through. *)
Inductive exn : Type :=
| EnvironmentError (msg : string)
| ValueError (msg : string)
| KeyError (key : string)
| AttributeError (attr : string)
| ApiException (msg : string)            (* Plaid client *)
| OperationalError (msg : string)        (* psycopg2.connect *)
| InterfaceError                         (* use of a closed connection *)
| ProgrammingError (msg : string)        (* fetch without a result set *)
| InFailedSqlTransaction                 (* statement after a failed one *)
| UndefinedTable (name : string)
| InvalidColumnReference (col : string)  (* ON CONFLICT target is no key *)
| NotNullViolation (col : string)
| DataError (col : string)
| CardinalityViolation                   (* ON CONFLICT hits a row twice *)
| ForeignKeyViolation (key : string).

(** Result of running a Python function for a bounded number of loop
    iterations. *)
Inductive outcome (A : Type) : Type :=
| Returned (a : A)
| Raised (e : exn)
| OutOfFuel.
Arguments Returned {A} a.
Arguments Raised {A} e.
Arguments OutOfFuel {A}.

(** A JSON number as Python holds it: an [int], or a binary64 [float]
    given by its integral significand and binary exponent. *)
Inductive pynumber : Type :=
| PyInt (z : Z)
| PyFloat (significand exponent : Z).

(** [datetime.date]: the proleptic Gregorian ordinal ([date.toordinal()]). *)
Definition pydate : Type := Z.

(** [datetime.datetime] in UTC as the ETL scripts use it: only
    [- timedelta(days=..)] and [.date()] are applied, both of which act
    on the ordinal of the day and leave the time of day alone. *)
Record pydatetime : Type := mk_datetime {
  dt_ordinal : Z;        (* toordinal() of the calendar day *)
  dt_micros  : Z         (* microseconds since midnight *)
}.

Definition dt_date (d : pydatetime) : pydate := dt_ordinal d.

(** [d - timedelta(days=n)] *)
Definition dt_minus_days (d : pydatetime) (n : Z) : pydatetime :=
  mk_datetime (dt_ordinal d - n) (dt_micros d).

(** What a caller may pass as a date bound: a [date], or a [str]
    ([main] forwards [sys.argv] entries unchanged). *)
Inductive date_value : Type :=
| DateObj (d : pydate)
| DateStr (s : string).

(** Python truthiness of an optional date bound, for [if not start_date]. *)
Definition truthy_date (d : option date_value) : bool :=
  match d with
  | None => false
  | Some (DateStr s) => negb (String.eqb s "")
  | Some (DateObj _) => true
  end.

(** Python truthiness of an optional string ([if not self.plaid_access_token]). *)
Definition truthy_str (s : option string) : bool :=
  match s with
  | None => false
  | Some s => negb (String.eqb s "")
  end.

(** A value placed in a statement parameter or a dictionary entry, and
    the cell the server keeps for it ([PyNone] is NULL). *)
Inductive pyval : Type :=
| PyNone
| PyStr (s : string)
| PyNum (n : pynumber)
| PyBool (b : bool)
| PyDay (d : pydate)
| PyTime (t : pydatetime)
| PyList (l : list string).

#[global] Instance pynumber_eq_dec : EqDecision pynumber.
Proof. solve_decision. Defined.
#[global] Instance pydatetime_eq_dec : EqDecision pydatetime.
Proof. solve_decision. Defined.
#[global] Instance pyval_eq_dec : EqDecision pyval.
Proof. solve_decision. Defined.

(** The value a Python function hands back: [None], or a mapping
    [{inserted, updated}]. *)
Inductive pyreturn : Type :=
| RetNone
| RetCounts (inserted updated : Z).

(* ===================================================================== *)
(** * Source records                                                      *)
(* ===================================================================== *)

(** An entry of [resp["accounts"]].  An optional field is [None] when the
    key is absent or holds [None] ([dict.get]).  A classification (type,
    subtype) is represented by the text [str()] gives for it. *)
Record Balances : Type := {
  bal_current : option pynumber;
  bal_available : option pynumber;
  bal_iso_currency_code : option string
}.

Record Account : Type := {
  acc_account_id : string;
  acc_name : option string;
  acc_official_name : option string;
  acc_type : option string;
  acc_subtype : option string;
  acc_mask : option string;
  acc_balances : Balances
}.

(** An entry of [resp["transactions"]].  [txn_category] distinguishes an
    absent key ([None]) from a null value ([Some None]) because
    [t.get("category", [])] does.  [txn_location] holds the location
    object as the JSON text of its [to_dict()]. *)
Record Transaction : Type := {
  txn_transaction_id : string;
  txn_account_id : string;
  txn_amount : pynumber;
  txn_date : pydate;
  txn_name : option string;
  txn_merchant_name : option string;
  txn_category : option (option (list string));
  txn_pending : option bool;
  txn_payment_channel : option string;
  txn_transaction_type : option string;
  txn_location : option string
}.

(* ===================================================================== *)
(** * The Plaid client                                                    *)
(* ===================================================================== *)

(** [TransactionsGetRequestOptions]: the paging window of a request. *)
Record TransactionsGetRequestOptions : Type := {
  opt_count : option Z;
  opt_offset : option Z
}.

Record TransactionsGetRequest : Type := {
  req_access_token : option string;
  req_start_date : date_value;
  req_end_date : date_value;
  req_options : option TransactionsGetRequestOptions
}.

(** The response of [transactions_get].  Either key may be absent. *)
Record TransactionsGetResponse : Type := {
  resp_transactions : option (list Transaction);
  resp_total_transactions : option Z
}.

(* ===================================================================== *)
(** * PostgreSQL through psycopg2                                         *)
(* ===================================================================== *)

Module Pg.

(** A stored row maps column names to cells; a table maps the text of
    the primary key to its row; a database maps table names to tables. *)
Abbreviation row := (gmap string pyval).
Abbreviation table := (gmap string row).
Abbreviation database := (gmap string table).

(** What [create_tables] declares: the primary-key column of a table
    and the column that references another table. *)
Record table_schema : Type := {
  pk_column : string;
  fk_column : option (string * string)
}.

Definition schema (name : string) : table_schema :=
  if String.eqb name "accounts" then
    {| pk_column := "account_id"; fk_column := None |}
  else if String.eqb name "transactions" then
    {| pk_column := "transaction_id";
       fk_column := Some ("account_id", "accounts") |}
  else {| pk_column := "id"; fk_column := None |}.

(** [INSERT INTO q_table (q_columns) VALUES %s
     ON CONFLICT (q_conflict) DO UPDATE SET c = EXCLUDED.c, (c in q_set)
     [RETURNING (xmax = 0) AS inserted]] *)
Record upsert_query : Type := {
  q_table : string;
  q_columns : list string;
  q_conflict : string;
  q_set : list string;
  q_returning : bool
}.

(** The row proposed for insertion by one VALUES tuple. *)
Definition make_row (columns : list string) (tuple : list pyval) : row :=
  list_to_map (zip columns tuple).

(** [DO UPDATE SET c = EXCLUDED.c]: the listed columns of the stored
    row take the proposed row's cells, the others stay. *)
Definition excluded_merge (set_cols : list string) (old new : row) : row :=
  foldr (fun c acc =>
           match new !! c with
           | Some v => <[c := v]> acc
           | None => acc
           end) old set_cols.

Section RowLoop.
Context {R : Type} (merge : R -> R -> R).

(** One statement over its tuples, in order.  [touched] holds the
    keys the statement has already inserted or updated: a second
    proposal for one of them is the error "ON CONFLICT DO UPDATE
    command cannot affect row a second time".  The flag returned
    with a key is [xmax = 0]: true exactly for a fresh insert. *)
Fixpoint upsert_rows (tbl : gmap string R) (touched : gset string)
    (rows : list (string * R)) : exn + (gmap string R * list (string * bool)) :=
  match rows with
  | [] => inr (tbl, [])
  | (k, r) :: rest =>
      if decide (k ∈ touched) then inl CardinalityViolation
      else
        let '(tbl1, fresh) :=
          match tbl !! k with
          | Some old => (<[k := merge old r]> tbl, false)
          | None => (<[k := r]> tbl, true)
          end in
        match upsert_rows tbl1 ({[k]} ∪ touched) rest with
        | inl e => inl e
        | inr (tbl2, flags) => inr (tbl2, (k, fresh) :: flags)
        end
  end.
End RowLoop.

(** The key of a proposed row: the primary key is NOT NULL text. *)
Definition keyed (q : upsert_query) (tuple : list pyval) : exn + (string * row) :=
  let r := make_row (q_columns q) tuple in
  match r !! q_conflict q with
  | Some (PyStr k) => inr (k, r)
  | Some PyNone | None => inl (NotNullViolation (q_conflict q))
  | Some _ => inl (DataError (q_conflict q))
  end.

Fixpoint keyed_all (q : upsert_query) (page : list (list pyval))
  : exn + list (string * row) :=
  match page with
  | [] => inr []
  | t :: rest =>
      match keyed q t with
      | inl e => inl e
      | inr kr =>
          match keyed_all q rest with
          | inl e => inl e
          | inr krs => inr (kr :: krs)
          end
      end
  end.

(** The referential check the server runs at the end of the statement
    for the row now stored under [k]: a NULL reference passes, a
    reference the statement did not write passes, any other must name
    a row of the referenced table. *)
Definition fk_holds (db : database) (fk : string * string)
    (before after : table) (k : string) : bool :=
  match after !! k with
  | None => true
  | Some r =>
      match r !! fk.1 with
      | None | Some PyNone => true
      | Some v =>
          if bool_decide ((before !! k) ≫= (fun o => o !! fk.1) = Some v) then true
          else
            match v with
            | PyStr a =>
                bool_decide (is_Some (default ∅ (db !! fk.2) !! a))
            | _ => false
            end
      end
  end.

(** The key of the first affected row that fails the check, if any. *)
Definition fk_violation (db : database) (q : upsert_query)
    (before after : table) (flags : list (string * bool)) : option string :=
  match fk_column (schema (q_table q)) with
  | None => None
  | Some fk =>
      head (filter (fun k => fk_holds db fk before after k = false) (fst <$> flags))
  end.

(** One [cursor.execute] of the statement with one page of tuples.
    The result set is the list of [inserted] flags when the statement
    has a RETURNING clause. *)
Definition exec_upsert (db : database) (q : upsert_query)
    (page : list (list pyval)) : exn + (database * option (list bool)) :=
  match db !! q_table q with
  | None => inl (UndefinedTable (q_table q))
  | Some tbl =>
      if negb (String.eqb (pk_column (schema (q_table q))) (q_conflict q))
      then inl (InvalidColumnReference (q_conflict q))
      else
        match keyed_all q page with
        | inl e => inl e
        | inr rows =>
            match upsert_rows (excluded_merge (q_set q)) tbl ∅ rows with
            | inl e => inl e
            | inr (tbl1, flags) =>
                match fk_violation db q tbl tbl1 flags with
                | Some k => inl (ForeignKeyViolation k)
                | None =>
                    inr (<[q_table q := tbl1]> db,
                         if q_returning q then Some (snd <$> flags) else None)
                end
            end
        end
  end.

(** A psycopg2 connection (autocommit off).  [working] is the state
    the open transaction sees, [committed] the durable one. *)
Record connection : Type := mk_connection {
  committed : database;
  working : database;
  aborted : bool;
  closed : bool
}.

Definition connect (db : database) : connection :=
  mk_connection db db false false.

(** [conn.commit()]: COMMIT of a failed transaction rolls it back. *)
Definition commit (c : connection) : connection :=
  if aborted c then mk_connection (committed c) (committed c) false (closed c)
  else mk_connection (working c) (working c) false (closed c).

(** [conn.rollback()] *)
Definition rollback (c : connection) : connection :=
  mk_connection (committed c) (committed c) false (closed c).

(** [conn.close()]: work not committed is discarded. *)
Definition close (c : connection) : connection :=
  mk_connection (committed c) (committed c) false true.

(** The result set a cursor holds: that of the statement it ran last. *)
Definition cursor : Type := option (list bool).

Definition execute (c : connection) (q : upsert_query)
    (page : list (list pyval)) : (exn + cursor) * connection :=
  if closed c then (inl InterfaceError, c)
  else if aborted c then (inl InFailedSqlTransaction, c)
  else
    match exec_upsert (working c) q page with
    | inl e => (inl e, mk_connection (committed c) (working c) true (closed c))
    | inr (db, res) => (inr res, mk_connection (committed c) db false (closed c))
    end.

(** [psycopg2.extras._paginate]: pages of [page_size] items, the last
    one shorter; no page for an empty sequence.  [page] is the page
    being filled and [room] the number of items it still takes. *)
Fixpoint paginate_from {A : Type} (page_size : nat) (page : list A) (room : nat)
    (seq : list A) : list (list A) :=
  match seq with
  | [] => match page with [] => [] | _ => [page] end
  | x :: rest =>
      match room with
      | O => []      (* page_size = 0: range(0) takes nothing *)
      | S O => (page ++ [x]) :: paginate_from page_size [] page_size rest
      | S r => paginate_from page_size (page ++ [x]) r rest
      end
  end.

Definition paginate {A : Type} (seq : list A) (page_size : nat) : list (list A) :=
  paginate_from page_size [] page_size seq.

(** The loop of [execute_values]: one [cur.execute] per page, so the
    cursor ends up holding the result set of the last page only. *)
Fixpoint execute_pages (c : connection) (cur : cursor) (q : upsert_query)
    (pages : list (list (list pyval))) : (exn + cursor) * connection :=
  match pages with
  | [] => (inr cur, c)
  | page :: rest =>
      match execute c q page with
      | (inl e, c1) => (inl e, c1)
      | (inr cur1, c1) => execute_pages c1 cur1 q rest
      end
  end.

(** [execute_values(cur, sql, argslist)] with its defaults
    [page_size=100, fetch=False], on a fresh cursor. *)
Definition page_size : nat := 100.

Definition execute_values (c : connection) (q : upsert_query)
    (argslist : list (list pyval)) : (exn + cursor) * connection :=
  execute_pages c None q (paginate argslist page_size).

(** [cursor.fetchall()] *)
Definition fetchall (cur : cursor) : exn + list bool :=
  match cur with
  | Some rows => inr rows
  | None => inl (ProgrammingError "no results to fetch")
  end.

(** [CREATE TABLE IF NOT EXISTS name (...)] *)
Definition create_table_if_not_exists (name : string) (db : database) : database :=
  match db !! name with
  | Some _ => db
  | None => <[name := ∅]> db
  end.

(** ** Derived notions, used to state what the statements do *)

(** The row stored after proposing [r] where [o] is stored. *)
Definition upd {R : Type} (merge : R -> R -> R) (o : option R) (r : R) : R :=
  match o with
  | Some old => merge old r
  | None => r
  end.

(** The row stored after proposing the rows [rs], one after the other. *)
Definition replay {R : Type} (merge : R -> R -> R) (o : option R) (rs : list R)
  : option R :=
  foldl (fun o r => Some (upd merge o r)) o rs.

(** The rows proposed under key [k], in order. *)
Definition rows_for {R : Type} (k : string) (rows : list (string * R)) : list R :=
  snd <$> filter (fun kr => kr.1 = k) rows.

(** The table after a statement whose tuples hit pairwise distinct keys,
    and the flags it returns. *)
Definition apply_rows {R : Type} (merge : R -> R -> R) (tbl : gmap string R)
    (rows : list (string * R)) : gmap string R :=
  foldl (fun t kr => <[kr.1 := upd merge (t !! kr.1) kr.2]> t) tbl rows.

Definition flags_of {R : Type} (tbl : gmap string R) (rows : list (string * R))
  : list (string * bool) :=
  (fun kr => (kr.1, bool_decide (tbl !! kr.1 = None))) <$> rows.

(** The effect of the pages of one [execute_values] call on the database
    the transaction sees and on the cursor. *)
Fixpoint run_pages (db : database) (cur : cursor) (q : upsert_query)
    (pages : list (list (list pyval))) : exn + (database * cursor) :=
  match pages with
  | [] => inr (db, cur)
  | page :: rest =>
      match exec_upsert db q page with
      | inl e => inl e
      | inr (db1, cur1) => run_pages db1 cur1 q rest
      end
  end.

(** A connection on which statements can run. *)
Definition usable (c : connection) : Prop :=
  closed c = false /\ aborted c = false.

End Pg.

(* ===================================================================== *)
(** * The process and what surrounds it                                   *)
(* ===================================================================== *)

(** The response of [accounts_get]; the key may be absent. *)
Record AccountsGetResponse : Type := {
  resp_accounts : option (list Account)
}.

(** The response of [item_public_token_exchange]. *)
Record ExchangeResponse : Type := {
  resp_access_token : option string;
  resp_item_id : option string
}.

(** What the scripts run against: the wall clock, read once per call of
    [datetime.now(timezone.utc)] (the n-th reading is [clock n]), the
    Plaid endpoints, which answer a request by its content, the
    database [psycopg2.connect] reaches, and [str()] of a value that is
    not a string. *)
Record environment : Type := {
  clock : nat -> pydatetime;
  transactions_get : TransactionsGetRequest -> exn + TransactionsGetResponse;
  accounts_get : option string -> exn + AccountsGetResponse;
  item_public_token_exchange : string -> exn + ExchangeResponse;
  pg_server : exn + Pg.database;
  str_of : pyval -> string
}.

(** A line written to standard output. *)
Inductive log_line : Type :=
| LogExchanging
| LogExchanged (item_id : option string)
| LogConnected
| LogTablesVerified
| LogTablesInDatabase (names : gset string)
| LogExtractedAccounts (n : nat)
| LogExtractedTransactions (n : nat) (total : Z)
| LogAccountsLoaded (n inserted updated : Z)
| LogTransactionsLoaded (n inserted updated : Z)
| LogCompleted
| LogFailed (e : exn)
| LogConnectionClosed
| LogNoData (table : string)
| LogUpserted (n : nat) (table : string)
| LogExported (table bucket key : string)
| LogRunExported.

(** An object put to S3: bucket, key, and the rows handed to the CSV
    writer (header first). *)
Record s3_object : Type := {
  obj_bucket : string;
  obj_key : string;
  obj_header : list string;
  obj_rows : list Pg.row
}.

(** The part of the process state outside the ETL object: how many times
    the clock was read, the transaction requests sent (oldest first),
    standard output (oldest first) and the objects uploaded. *)
Record world : Type := mk_world {
  ticks : nat;
  sent : list TransactionsGetRequest;
  stdout : list log_line;
  uploaded : list s3_object
}.

Definition world0 : world := mk_world 0 [] [] [].

(** [datetime.now(timezone.utc)] *)
Definition now (env : environment) (w : world) : pydatetime * world :=
  (clock env (ticks w), mk_world (S (ticks w)) (sent w) (stdout w) (uploaded w)).

(** [print(...)] *)
Definition say (l : log_line) (w : world) : world :=
  mk_world (ticks w) (sent w) (stdout w ++ [l]) (uploaded w).

(** [self.client.transactions_get(req)] *)
Definition call_transactions_get (env : environment)
    (req : TransactionsGetRequest) (w : world)
  : (exn + TransactionsGetResponse) * world :=
  (transactions_get env req,
   mk_world (ticks w) (sent w ++ [req]) (stdout w) (uploaded w)).

(** The two defaulting statements at the head of [extract_transactions],
    the same in both ETL scripts:
<<
    if not start_date:
        start_date = (datetime.now(timezone.utc) - timedelta(days=90)).date()
    if not end_date:
        end_date = datetime.now(timezone.utc).date()
>> *)
Definition default_start (env : environment) (start_date : option date_value)
    (w : world) : date_value * world :=
  match start_date with
  | Some d =>
      if truthy_date start_date then (d, w)
      else let '(t, w1) := now env w in
           (DateObj (dt_date (dt_minus_days t 90)), w1)
  | None => let '(t, w1) := now env w in
            (DateObj (dt_date (dt_minus_days t 90)), w1)
  end.

Definition default_end (env : environment) (end_date : option date_value)
    (w : world) : date_value * world :=
  match end_date with
  | Some d =>
      if truthy_date end_date then (d, w)
      else let '(t, w1) := now env w in (DateObj (dt_date t), w1)
  | None => let '(t, w1) := now env w in (DateObj (dt_date t), w1)
  end.

(** The request [extract_transactions] sends first in either script: the
    token and the date bounds after defaulting, no [options]. *)
Definition first_request (env : environment) (token : option string)
    (start_date end_date : option date_value) (w : world) : TransactionsGetRequest :=
  let sw := default_start env start_date w in
  {| req_access_token := token; req_start_date := sw.1;
     req_end_date := (default_end env end_date sw.2).1; req_options := None |}.

(** The ETL object ([self]) of either script. *)
Record etl : Type := mk_etl {
  plaid_access_token : option string;
  plaid_public_token : option string;
  pg_conn : option Pg.connection;
  s3_bucket : string;
  s3_prefix : string
}.

Definition set_conn (self : etl) (c : option Pg.connection) : etl :=
  mk_etl (plaid_access_token self) (plaid_public_token self) c
         (s3_bucket self) (s3_prefix self).

Definition set_access_token (self : etl) (t : option string) : etl :=
  mk_etl t (plaid_public_token self) (pg_conn self)
         (s3_bucket self) (s3_prefix self).

(** The list comprehension of a loader,
    [[(.., datetime.now(timezone.utc), datetime.now(timezone.utc)) for x in xs]]:
    one tuple per item, in order, each with two readings of the clock. *)
Fixpoint stamped {A : Type} (env : environment)
    (tuple : A -> pydatetime -> pydatetime -> list pyval) (xs : list A) (w : world)
  : list (list pyval) * world :=
  match xs with
  | [] => ([], w)
  | x :: rest =>
      let '(t1, w1) := now env w in
      let '(t2, w2) := now env w1 in
      let '(rows, w3) := stamped env tuple rest w2 in
      (tuple x t1 t2 :: rows, w3)
  end.

(** [sum(r[0] for r in result)] *)
Definition count_true (result : list bool) : Z :=
  Z.of_nat (length (filter (fun b => b = true) result)).

(** A method body: it may change the ETL object and the world, and it
    returns, raises, or is still looping when the fuel is spent. *)
Definition action (A : Type) : Type := etl -> world -> outcome A * etl * world.

Definition ret {A : Type} (a : A) : action A := fun self w => (Returned a, self, w).

Definition raise {A : Type} (e : exn) : action A := fun self w => (Raised e, self, w).

Definition bind {A B : Type} (m : action A) (k : A -> action B) : action B :=
  fun self w =>
    match m self w with
    | (Returned a, self1, w1) => k a self1 w1
    | (Raised e, self1, w1) => (Raised e, self1, w1)
    | (OutOfFuel, self1, w1) => (OutOfFuel, self1, w1)
    end.

Notation "x <-- m ;; k" := (bind m (fun x => k))
  (at level 100, m at next level, right associativity).

Definition print (l : log_line) : action unit :=
  fun self w => (Returned tt, self, say l w).

(** [self.pg_conn.<method>]: the attribute must hold a connection. *)
Definition the_connection : action Pg.connection :=
  fun self w =>
    match pg_conn self with
    | Some c => (Returned c, self, w)
    | None => (Raised (AttributeError "pg_conn"), self, w)
    end.

Definition put_connection (c : Pg.connection) : action unit :=
  fun self w => (Returned tt, set_conn self (Some c), w).

(** [try: body  except Exception as e: handler(e); raise  finally: cleanup]
    as [run] of [extrqct_upsert_accunt.py] uses it. *)
Definition try_except_finally {A : Type} (body : action A)
    (handler : exn -> action unit) (cleanup : action unit) : action A :=
  fun self w =>
    match body self w with
    | (Returned a, self1, w1) =>
        match cleanup self1 w1 with
        | (Returned _, self2, w2) => (Returned a, self2, w2)
        | (Raised e, self2, w2) => (Raised e, self2, w2)
        | (OutOfFuel, self2, w2) => (OutOfFuel, self2, w2)
        end
    | (Raised e, self1, w1) =>
        match handler e self1 w1 with
        | (Returned _, self2, w2) =>
            match cleanup self2 w2 with
            | (Returned _, self3, w3) => (Raised e, self3, w3)
            | (Raised e', self3, w3) => (Raised e', self3, w3)
            | (OutOfFuel, self3, w3) => (OutOfFuel, self3, w3)
            end
        | (Raised e', self2, w2) =>
            match cleanup self2 w2 with
            | (Returned _, self3, w3) => (Raised e', self3, w3)
            | (Raised e'', self3, w3) => (Raised e'', self3, w3)
            | (OutOfFuel, self3, w3) => (OutOfFuel, self3, w3)
            end
        | (OutOfFuel, self2, w2) => (OutOfFuel, self2, w2)
        end
    | (OutOfFuel, self1, w1) => (OutOfFuel, self1, w1)
    end.

(* ===================================================================== *)
(** * extrqct_upsert_accunt.py                                            *)
(* ===================================================================== *)

Module Basic.

(** [safe_str]: [str(value) if value is not None else None] *)
Definition safe_str (value : option string) : pyval :=
  match value with
  | Some v => PyStr v
  | None => PyNone
  end.

(** [json.dumps(serialize_location(location))]: [{}] for no location. *)
Definition dumps_location (location : option string) : pyval :=
  match location with
  | None => PyStr "{}"
  | Some json => PyStr json
  end.

Definition number_cell (n : option pynumber) : pyval :=
  match n with
  | Some x => PyNum x
  | None => PyNone
  end.

(** [exchange_public_token] *)
Definition exchange_public_token (env : environment) (public_token : option string)
  : action (option string * option string) :=
  fun self w =>
    match public_token with
    | None => (Raised (ValueError "public_token is required"), self, w)
    | Some tok =>
        if negb (truthy_str public_token)
        then (Raised (ValueError "public_token is required"), self, w)
        else
          match item_public_token_exchange env tok with
          | inl e => (Raised e, self, w)
          | inr resp =>
              match resp_access_token resp with
              | None => (Raised (KeyError "access_token"), self, w)
              | Some access =>
                  let self1 := set_access_token self (Some access) in
                  (Returned (Some access, resp_item_id resp), self1,
                   say (LogExchanged (resp_item_id resp)) w)
              end
          end
    end.

(** [connect_postgres] *)
Definition connect_postgres (env : environment) : action unit :=
  fun self w =>
    match pg_server env with
    | inl e => (Raised e, self, w)
    | inr db => (Returned tt, set_conn self (Some (Pg.connect db)), say LogConnected w)
    end.

(** The two [CREATE TABLE IF NOT EXISTS] statements of [create_tables]
    (the two [CREATE INDEX] statements leave the rows alone). *)
Definition ddl (db : Pg.database) : Pg.database :=
  Pg.create_table_if_not_exists "transactions"
    (Pg.create_table_if_not_exists "accounts" db).

Definition run_ddl (f : Pg.database -> Pg.database) (c : Pg.connection)
  : exn + Pg.connection :=
  if Pg.closed c then inl InterfaceError
  else if Pg.aborted c then inl InFailedSqlTransaction
  else inr (Pg.mk_connection (Pg.committed c) (f (Pg.working c)) false (Pg.closed c)).

(** [create_tables] *)
Definition create_tables : action unit :=
  c <-- the_connection ;;
  match run_ddl ddl c with
  | inl e => raise e
  | inr c1 =>
      _ <-- put_connection (Pg.commit c1) ;;
      print LogTablesVerified
  end.

(** [extract_accounts] *)
Definition extract_accounts (env : environment) : action (list Account) :=
  fun self w =>
    match accounts_get env (plaid_access_token self) with
    | inl e => (Raised e, self, w)
    | inr resp =>
        match resp_accounts resp with
        | None => (Raised (KeyError "accounts"), self, w)
        | Some accounts =>
            (Returned accounts, self,
             say (LogExtractedAccounts (length accounts)) w)
        end
    end.

(** The request both the first call and every call of the loop build:
    token and the two dates, no [options]. *)
Definition make_request (token : option string) (start_date end_date : date_value)
  : TransactionsGetRequest :=
  {| req_access_token := token; req_start_date := start_date;
     req_end_date := end_date; req_options := None |}.

(** The [while len(transactions) < total] loop of [extract_transactions];
    [fuel] bounds the number of iterations.  [resp["transactions"]]
    raises [KeyError] on a response without the key. *)
Fixpoint fetch_rest (env : environment) (fuel : nat)
    (token : option string) (start_date end_date : date_value)
    (total : Z) (transactions : list Transaction) (w : world)
  : outcome (list Transaction) * world :=
  if Z.of_nat (length transactions) <? total then
    match fuel with
    | O => (OutOfFuel, w)
    | S fuel' =>
        let req := make_request token start_date end_date in
        match call_transactions_get env req w with
        | (inl e, w1) => (Raised e, w1)
        | (inr resp, w1) =>
            match resp_transactions resp with
            | None => (Raised (KeyError "transactions"), w1)
            | Some page =>
                fetch_rest env fuel' token start_date end_date total
                           (transactions ++ page) w1
            end
        end
    end
  else
    (Returned transactions,
     say (LogExtractedTransactions (length transactions) total) w).

(** [extract_transactions] *)
Definition extract_transactions (env : environment) (fuel : nat)
    (token : option string) (start_date end_date : option date_value)
    (w : world) : outcome (list Transaction) * world :=
  let '(start_date, w1) := default_start env start_date w in
  let '(end_date, w2) := default_end env end_date w1 in
  let req := make_request token start_date end_date in
  match call_transactions_get env req w2 with
  | (inl e, w3) => (Raised e, w3)
  | (inr resp, w3) =>
      match resp_transactions resp with
      | None => (Raised (KeyError "transactions"), w3)
      | Some transactions =>
          let total :=
            match resp_total_transactions resp with
            | Some n => n
            | None => Z.of_nat (length transactions)
            end in
          fetch_rest env fuel token start_date end_date total transactions w3
      end
  end.

Definition extract_transactions_m (env : environment) (fuel : nat)
    (start_date end_date : option date_value) : action (list Transaction) :=
  fun self w =>
    let '(r, w1) :=
      extract_transactions env fuel (plaid_access_token self) start_date end_date w in
    (r, self, w1).

(** The statement of [load_accounts]. *)
Definition accounts_query : Pg.upsert_query :=
  {| Pg.q_table := "accounts";
     Pg.q_columns := ["account_id"; "name"; "official_name"; "type"; "subtype";
                      "mask"; "current_balance"; "available_balance";
                      "currency_code"; "created_at"; "updated_at"];
     Pg.q_conflict := "account_id";
     Pg.q_set := ["name"; "official_name"; "type"; "subtype"; "mask";
                  "current_balance"; "available_balance"; "currency_code";
                  "updated_at"];
     Pg.q_returning := true |}.

(** The tuple [load_accounts] builds for one account; [created_at] and
    [updated_at] are two readings of the clock. *)
Definition account_tuple (a : Account) (created_at updated_at : pydatetime)
  : list pyval :=
  [ PyStr (acc_account_id a);
    safe_str (acc_name a);
    safe_str (acc_official_name a);
    safe_str (acc_type a);
    safe_str (acc_subtype a);
    safe_str (acc_mask a);
    number_cell (bal_current (acc_balances a));
    number_cell (bal_available (acc_balances a));
    safe_str (bal_iso_currency_code (acc_balances a));
    PyTime created_at;
    PyTime updated_at ].

Definition account_rows (env : environment) (accounts : list Account) (w : world)
  : list (list pyval) * world :=
  stamped env account_tuple accounts w.

(** The statement of [load_transactions]: [account_id] and [created_at]
    are not in its SET list. *)
Definition transactions_query : Pg.upsert_query :=
  {| Pg.q_table := "transactions";
     Pg.q_columns := ["transaction_id"; "account_id"; "amount"; "date"; "name";
                      "merchant_name"; "category"; "pending"; "payment_channel";
                      "transaction_type"; "location"; "created_at"; "updated_at"];
     Pg.q_conflict := "transaction_id";
     Pg.q_set := ["amount"; "date"; "name"; "merchant_name"; "category";
                  "pending"; "payment_channel"; "transaction_type"; "location";
                  "updated_at"];
     Pg.q_returning := true |}.

Definition category_cell (c : option (option (list string))) : pyval :=
  match c with
  | None => PyList []
  | Some None => PyNone
  | Some (Some l) => PyList l
  end.

Definition bool_cell (b : option bool) : pyval :=
  match b with
  | Some x => PyBool x
  | None => PyNone
  end.

Definition transaction_tuple (t : Transaction) (created_at updated_at : pydatetime)
  : list pyval :=
  [ PyStr (txn_transaction_id t);
    PyStr (txn_account_id t);
    PyNum (txn_amount t);
    PyDay (txn_date t);
    safe_str (txn_name t);
    safe_str (txn_merchant_name t);
    category_cell (txn_category t);
    bool_cell (txn_pending t);
    safe_str (txn_payment_channel t);
    safe_str (txn_transaction_type t);
    dumps_location (txn_location t);
    PyTime created_at;
    PyTime updated_at ].

Definition transaction_rows (env : environment) (transactions : list Transaction)
    (w : world) : list (list pyval) * world :=
  stamped env transaction_tuple transactions w.

(** The common tail of [load_accounts] and [load_transactions]:
<<
    execute_values(cursor, query, rows)
    result = cursor.fetchall()
    inserted = sum(r[0] for r in result)
    updated = len(result) - inserted
    self.pg_conn.commit()
    cursor.close()
    print(f"... loaded: {len(result)} (Inserted: {inserted}, Updated: {updated})")
>> *)
Definition execute_and_report (q : Pg.upsert_query) (rows : list (list pyval))
    (line : Z -> Z -> Z -> log_line) (c : Pg.connection) : action pyreturn :=
  match Pg.execute_values c q rows with
  | (inl e, c1) => _ <-- put_connection c1 ;; raise e
  | (inr cur, c1) =>
      _ <-- put_connection c1 ;;
      match Pg.fetchall cur with
      | inl e => raise e
      | inr result =>
          let inserted := count_true result in
          let updated := Z.of_nat (length result) - inserted in
          _ <-- put_connection (Pg.commit c1) ;;
          _ <-- print (line (Z.of_nat (length result)) inserted updated) ;;
          ret RetNone
      end
  end.

(** [load_accounts] *)
Definition load_accounts (env : environment) (accounts : list Account)
  : action pyreturn :=
  match accounts with
  | [] => ret RetNone
  | _ :: _ =>
      c <-- the_connection ;;
      fun self w =>
        let '(rows, w1) := account_rows env accounts w in
        execute_and_report accounts_query rows LogAccountsLoaded c self w1
  end.

(** [load_transactions] *)
Definition load_transactions (env : environment) (transactions : list Transaction)
  : action pyreturn :=
  match transactions with
  | [] => ret RetNone
  | _ :: _ =>
      c <-- the_connection ;;
      fun self w =>
        let '(rows, w1) := transaction_rows env transactions w in
        execute_and_report transactions_query rows LogTransactionsLoaded c self w1
  end.

(** The head of [run]: the token exchange, outside the [try]. *)
Definition ensure_token (env : environment) : action unit :=
  fun self w =>
    if truthy_str (plaid_access_token self) then (Returned tt, self, w)
    else if truthy_str (plaid_public_token self) then
      (_ <-- print LogExchanging ;;
       _ <-- exchange_public_token env (plaid_public_token self) ;;
       ret tt) self w
    else (Raised (EnvironmentError "PLAID_ACCESS_TOKEN not set"), self, w).

(** The body of the [try] block of [run]. *)
Definition run_body (env : environment) (fuel : nat)
    (start_date end_date : option date_value) : action pyreturn :=
  _ <-- connect_postgres env ;;
  _ <-- create_tables ;;
  accounts <-- extract_accounts env ;;
  transactions <-- extract_transactions_m env fuel start_date end_date ;;
  _ <-- load_accounts env accounts ;;
  _ <-- load_transactions env transactions ;;
  _ <-- print LogCompleted ;;
  ret RetNone.

(** The [except] clause: print, roll back if there is a connection. *)
Definition on_failure (e : exn) : action unit :=
  _ <-- print (LogFailed e) ;;
  fun self w =>
    match pg_conn self with
    | Some c => (Returned tt, set_conn self (Some (Pg.rollback c)), w)
    | None => (Returned tt, self, w)
    end.

(** The [finally] clause: close if there is a connection. *)
Definition release : action unit :=
  fun self w =>
    match pg_conn self with
    | Some c =>
        (Returned tt, set_conn self (Some (Pg.close c)), say LogConnectionClosed w)
    | None => (Returned tt, self, w)
    end.

(** [run] *)
Definition run (env : environment) (fuel : nat)
    (start_date end_date : option date_value) : action pyreturn :=
  _ <-- ensure_token env ;;
  try_except_finally (run_body env fuel start_date end_date) on_failure release.

End Basic.

(* ===================================================================== *)
(** * plaid_to_PostgreSQL_ETL_Detailed_Logging.py                         *)
(* ===================================================================== *)

Module Detailed.

(** A Python [dict] with string keys, in insertion order. *)
Definition dict : Type := list (string * pyval).

Fixpoint dict_lookup (d : dict) (key : string) : option pyval :=
  match d with
  | [] => None
  | (k, v) :: rest => if String.eqb k key then Some v else dict_lookup rest key
  end.

(** [d.get(key)] and [d.get(key, fallback)] *)
Definition dict_get (d : dict) (key : string) : pyval :=
  default PyNone (dict_lookup d key).

Definition dict_get_or (d : dict) (key : string) (fallback : pyval) : pyval :=
  default fallback (dict_lookup d key).

(** [safe_str]: [None] stays, anything else goes through [str()]. *)
Definition safe_str (env : environment) (value : pyval) : pyval :=
  match value with
  | PyNone => PyNone
  | PyStr s => PyStr s
  | _ => PyStr (str_of env value)
  end.

Definition text_cell (o : option string) : pyval :=
  match o with
  | Some s => PyStr s
  | None => PyNone
  end.

Definition number_cell (n : option pynumber) : pyval :=
  match n with
  | Some x => PyNum x
  | None => PyNone
  end.

Definition bool_cell (b : option bool) : pyval :=
  match b with
  | Some x => PyBool x
  | None => PyNone
  end.

(** [t.get('category')] *)
Definition category_cell (c : option (option (list string))) : pyval :=
  match c with
  | Some (Some l) => PyList l
  | _ => PyNone
  end.

(** [json.dumps(serialize_location(location))] *)
Definition dumps_location (location : option string) : pyval :=
  match location with
  | None => PyStr "{}"
  | Some json => PyStr json
  end.

(** [__init__]: a non-empty prefix is made to end in a slash. *)
Fixpoint ends_with_slash (s : string) : bool :=
  match s with
  | EmptyString => false
  | String c EmptyString => Ascii.eqb c "/"
  | String _ rest => ends_with_slash rest
  end.

Definition init_prefix (raw : string) : string :=
  if negb (String.eqb raw "") && negb (ends_with_slash raw)
  then String.append raw "/" else raw.

(** [connect_postgres] *)
Definition connect_postgres (env : environment) : action unit :=
  fun self w =>
    match pg_server env with
    | inl e => (Raised e, self, w)
    | inr db => (Returned tt, set_conn self (Some (Pg.connect db)), say LogConnected w)
    end.

Definition placeholder_tables : list string :=
  ["categories"; "customers"; "products"; "orders"; "order_items"].

(** The [CREATE TABLE IF NOT EXISTS] statements of [create_tables]. *)
Definition ddl (db : Pg.database) : Pg.database :=
  foldl (fun acc name => Pg.create_table_if_not_exists name acc)
        (Pg.create_table_if_not_exists "transactions"
           (Pg.create_table_if_not_exists "accounts" db))
        placeholder_tables.

Definition run_ddl (f : Pg.database -> Pg.database) (c : Pg.connection)
  : exn + Pg.connection :=
  if Pg.closed c then inl InterfaceError
  else if Pg.aborted c then inl InFailedSqlTransaction
  else inr (Pg.mk_connection (Pg.committed c) (f (Pg.working c)) false (Pg.closed c)).

(** [create_tables] *)
Definition create_tables : action unit :=
  c <-- the_connection ;;
  match run_ddl ddl c with
  | inl e => raise e
  | inr c1 =>
      _ <-- put_connection (Pg.commit c1) ;;
      print LogTablesVerified
  end.

(** [list_tables] *)
Definition list_tables : action (gset string) :=
  c <-- the_connection ;;
  match run_ddl (fun db => db) c with
  | inl e => raise e
  | inr c1 =>
      _ <-- put_connection c1 ;;
      _ <-- print (LogTablesInDatabase (dom (Pg.working c1))) ;;
      ret (dom (Pg.working c1))
  end.

(** [extract_accounts] *)
Definition extract_accounts (env : environment) : action (list Account) :=
  fun self w =>
    if negb (truthy_str (plaid_access_token self)) then
      (Raised (ValueError "PLAID_ACCESS_TOKEN is required"), self, w)
    else
      match accounts_get env (plaid_access_token self) with
      | inl e => (Raised e, self, w)
      | inr resp =>
          let accounts := default [] (resp_accounts resp) in
          (Returned accounts, self, say (LogExtractedAccounts (length accounts)) w)
      end.

(** [resp.get("transactions", [])] *)
Definition page_of (resp : TransactionsGetResponse) : list Transaction :=
  default [] (resp_transactions resp).

(** The loop of [extract_transactions]: the request object built before
    the loop is sent again. *)
Fixpoint fetch_rest (env : environment) (fuel : nat)
    (req : TransactionsGetRequest)
    (total : Z) (transactions : list Transaction) (w : world)
  : outcome (list Transaction) * world :=
  if Z.of_nat (length transactions) <? total then
    match fuel with
    | O => (OutOfFuel, w)
    | S fuel' =>
        match call_transactions_get env req w with
        | (inl e, w1) => (Raised e, w1)
        | (inr resp, w1) =>
            fetch_rest env fuel' req total (transactions ++ page_of resp) w1
        end
    end
  else
    (Returned transactions,
     say (LogExtractedTransactions (length transactions) total) w).

(** [extract_transactions] *)
Definition extract_transactions (env : environment) (fuel : nat)
    (token : option string) (start_date end_date : option date_value)
    (w : world) : outcome (list Transaction) * world :=
  if negb (truthy_str token) then
    (Raised (ValueError "PLAID_ACCESS_TOKEN is required"), w)
  else
    let '(start_date, w1) := default_start env start_date w in
    let '(end_date, w2) := default_end env end_date w1 in
    let req := {| req_access_token := token; req_start_date := start_date;
                  req_end_date := end_date; req_options := None |} in
    match call_transactions_get env req w2 with
    | (inl e, w3) => (Raised e, w3)
    | (inr resp, w3) =>
        let transactions := page_of resp in
        let total :=
          match resp_total_transactions resp with
          | Some n => n
          | None => Z.of_nat (length transactions)
          end in
        fetch_rest env fuel req total transactions w3
    end.

Definition extract_transactions_m (env : environment) (fuel : nat)
    (start_date end_date : option date_value) : action (list Transaction) :=
  fun self w =>
    let '(r, w1) :=
      extract_transactions env fuel (plaid_access_token self) start_date end_date w in
    (r, self, w1).

(** The tuple [upsert_table] builds from one dictionary. *)
Definition row_of (env : environment) (columns : list string) (now_ : pydatetime)
    (d : dict) : list pyval :=
  map (fun col =>
         if String.eqb col "created_at" || String.eqb col "updated_at"
         then dict_get_or d col (PyTime now_)
         else safe_str env (dict_get d col)) columns.

(** The statement [upsert_table] formats: every column but the conflict
    column is in the SET list, and there is no RETURNING clause. *)
Definition upsert_query_of (table_name : string) (columns : list string)
    (conflict_column : string) : Pg.upsert_query :=
  {| Pg.q_table := table_name;
     Pg.q_columns := columns;
     Pg.q_conflict := conflict_column;
     Pg.q_set := filter (fun col => col <> conflict_column) columns;
     Pg.q_returning := false |}.

(** [upsert_table] *)
Definition upsert_table (env : environment) (table_name : string)
    (data_list : list dict) (conflict_column : string) : action pyreturn :=
  match data_list with
  | [] => _ <-- print (LogNoData table_name) ;; ret RetNone
  | d0 :: _ =>
      c <-- the_connection ;;
      fun self w =>
        let '(now_, w1) := now env w in
        let columns := map fst d0 in
        let rows := map (row_of env columns now_) data_list in
        let q := upsert_query_of table_name columns conflict_column in
        match Pg.execute_values c q rows with
        | (inl e, c1) => (Raised e, set_conn self (Some c1), w1)
        | (inr _, c1) =>
            (Returned RetNone, set_conn self (Some (Pg.commit c1)),
             say (LogUpserted (length data_list) table_name) w1)
        end
  end.

(** The columns each table is declared with. *)
Definition table_columns (name : string) : list string :=
  if String.eqb name "accounts" then Pg.q_columns Basic.accounts_query
  else if String.eqb name "transactions" then Pg.q_columns Basic.transactions_query
  else ["id"; "created_at"; "updated_at"].

(** The object key of [export_table_to_s3]: prefix, table name, [.csv]. *)
Definition s3_key (s3_prefix table_name : string) : string :=
  String.append s3_prefix (String.append table_name ".csv").

(** [export_table_to_s3] *)
Definition export_table_to_s3 (table_name : string) : action pyreturn :=
  c <-- the_connection ;;
  fun self w =>
    if Pg.closed c then (Raised InterfaceError, self, w)
    else if Pg.aborted c then (Raised InFailedSqlTransaction, self, w)
    else
      match Pg.working c !! table_name with
      | None =>
          (Raised (UndefinedTable table_name),
           set_conn self (Some (Pg.mk_connection (Pg.committed c) (Pg.working c)
                                                 true (Pg.closed c))), w)
      | Some tbl =>
          let key := s3_key (s3_prefix self) table_name in
          let obj := {| obj_bucket := s3_bucket self; obj_key := key;
                        obj_header := table_columns table_name;
                        obj_rows := snd <$> map_to_list tbl |} in
          (Returned RetNone, self,
           say (LogExported table_name (s3_bucket self) key)
               (mk_world (ticks w) (sent w) (stdout w) (uploaded w ++ [obj])))
      end.

Definition account_dict (a : Account) (now_ : pydatetime) : dict :=
  [ ("account_id", PyStr (acc_account_id a));
    ("name", text_cell (acc_name a));
    ("official_name", text_cell (acc_official_name a));
    ("type", text_cell (acc_type a));
    ("subtype", text_cell (acc_subtype a));
    ("mask", text_cell (acc_mask a));
    ("current_balance", number_cell (bal_current (acc_balances a)));
    ("available_balance", number_cell (bal_available (acc_balances a)));
    ("currency_code", text_cell (bal_iso_currency_code (acc_balances a)));
    ("created_at", PyTime now_);
    ("updated_at", PyTime now_) ].

Definition transaction_dict (t : Transaction) (now_ : pydatetime) : dict :=
  [ ("transaction_id", PyStr (txn_transaction_id t));
    ("account_id", PyStr (txn_account_id t));
    ("amount", PyNum (txn_amount t));
    ("date", PyDay (txn_date t));
    ("name", text_cell (txn_name t));
    ("merchant_name", text_cell (txn_merchant_name t));
    ("category", category_cell (txn_category t));
    ("pending", bool_cell (txn_pending t));
    ("payment_channel", text_cell (txn_payment_channel t));
    ("transaction_type", text_cell (txn_transaction_type t));
    ("location", dumps_location (txn_location t));
    ("created_at", PyTime now_);
    ("updated_at", PyTime now_) ].

(** [for x in xs: body(x)] *)
Fixpoint for_each {A : Type} (xs : list A) (body : A -> action pyreturn)
  : action unit :=
  match xs with
  | [] => ret tt
  | x :: rest => _ <-- body x ;; for_each rest body
  end.

(** The head of [run]: [self.exchange_public_token] is called, but this
    class defines no such method. *)
Definition ensure_token : action unit :=
  fun self w =>
    if negb (truthy_str (plaid_access_token self))
       && truthy_str (plaid_public_token self)
    then (Raised (AttributeError "exchange_public_token"), self, say LogExchanging w)
    else (Returned tt, self, w).

(** [run]: no [try], no [except], no [finally]. *)
Definition run (env : environment) (fuel : nat)
    (start_date end_date : option date_value) : action pyreturn :=
  _ <-- ensure_token ;;
  _ <-- connect_postgres env ;;
  _ <-- create_tables ;;
  _ <-- list_tables ;;
  now_ <-- (fun self w => let '(t, w1) := now env w in (Returned t, self, w1)) ;;
  accounts <-- extract_accounts env ;;
  transactions <-- extract_transactions_m env fuel start_date end_date ;;
  _ <-- upsert_table env "accounts"
          (map (fun a => account_dict a now_) accounts) "account_id" ;;
  _ <-- upsert_table env "transactions"
          (map (fun t => transaction_dict t now_) transactions) "transaction_id" ;;
  _ <-- for_each placeholder_tables
          (fun table => upsert_table env table [] "created_at") ;;
  _ <-- for_each ("accounts" :: "transactions" :: placeholder_tables)
          export_table_to_s3 ;;
  _ <-- print LogRunExported ;;
  ret RetNone.

End Detailed.

(* ===================================================================== *)
(** * postgres_to_s3.py                                                   *)
(* ===================================================================== *)

Module PgToS3.

(** The fields of [datetime.now(timezone.utc)] that [strftime] reads,
    and the microsecond it drops. *)
Record utc_time : Type := mk_utc {
  year : Z;
  month : Z;
  day : Z;
  hour : Z;
  minute : Z;
  second : Z;
  microsecond : Z
}.

Definition digit (n : Z) : ascii := ascii_of_N (Z.to_N (48 + n mod 10)).

(** [%m], [%d], [%H], [%M], [%S]: two digits. *)
Definition pad2 (n : Z) : string :=
  String (digit (n / 10)) (String (digit n) EmptyString).

(** [%Y]: four digits. *)
Definition pad4 (n : Z) : string :=
  String (digit (n / 1000)) (String (digit (n / 100)) (pad2 n)).

(** [strftime("%Y%m%dT%H%M%SZ")] *)
Definition strftime_compact (t : utc_time) : string :=
  String.append (pad4 (year t))
    (String.append (pad2 (month t))
      (String.append (pad2 (day t))
        (String "T"
          (String.append (pad2 (hour t))
            (String.append (pad2 (minute t))
              (String.append (pad2 (second t)) "Z")))))).

(** [timestamp_now()], given the clock reading it takes. *)
Definition timestamp_now (reading : utc_time) : string := strftime_compact reading.

(** [s.rstrip("/")] *)
Fixpoint rstrip_slash (s : string) : string :=
  match s with
  | EmptyString => EmptyString
  | String c rest =>
      match rstrip_slash rest with
      | EmptyString => if Ascii.eqb c "/" then EmptyString else String c EmptyString
      | r => String c r
      end
  end.

(** [prefix = (s3_prefix.rstrip("/") + "/") if s3_prefix else ""] *)
Definition key_prefix (s3_prefix : option string) : string :=
  match s3_prefix with
  | Some p => if truthy_str s3_prefix then String.append (rstrip_slash p) "/" else ""
  | None => ""
  end.

(** [key = f"{prefix}{table_name}.{timestamp_now()}.csv"] *)
Definition s3_key (s3_prefix : option string) (table_name : string)
    (reading : utc_time) : string :=
  String.append (key_prefix s3_prefix)
    (String.append table_name
      (String "." (String.append (timestamp_now reading) ".csv"))).

(** What [export_table_to_s3] returns: [{"rows": .., "s3_key": ..}]. *)
Record export_result : Type := {
  res_rows : nat;
  res_s3_key : string
}.

(** [export_table_to_s3] on an open connection and an S3 client: COPY
    the table out, upload under the key, count the rows. *)
Definition export_table_to_s3 (table_name : string) (s3_bucket : option string)
    (s3_prefix : option string) (db : Pg.database) (reading : utc_time)
    (objects : list s3_object) : (exn + export_result) * list s3_object :=
  let key := s3_key s3_prefix table_name reading in
  match db !! table_name with
  | None => (inl (UndefinedTable table_name), objects)
  | Some tbl =>
      match s3_bucket with
      | None => (inl (EnvironmentError "Missing S3 bucket name."), objects)
      | Some bucket =>
          if negb (truthy_str s3_bucket)
          then (inl (EnvironmentError "Missing S3 bucket name."), objects)
          else
            let obj := {| obj_bucket := bucket; obj_key := key;
                          obj_header := Detailed.table_columns table_name;
                          obj_rows := snd <$> map_to_list tbl |} in
            (inr {| res_rows := size tbl; res_s3_key := key |}, objects ++ [obj])
      end
  end.

(** The fields of a reading down to the second. *)
Definition to_second (t : utc_time) : Z * Z * Z * Z * Z * Z :=
  (year t, month t, day t, hour t, minute t, second t).

(** The ranges of the fields of a [datetime] whose year has four digits. *)
Definition well_formed (t : utc_time) : Prop :=
  1000 <= year t <= 9999 /\ 1 <= month t <= 12 /\ 1 <= day t <= 31
  /\ 0 <= hour t <= 23 /\ 0 <= minute t <= 59 /\ 0 <= second t <= 59
  /\ 0 <= microsecond t <= 999999.

End PgToS3.

(* ===================================================================== *)
(** * Sample collaborators and data                                       *)
(* ===================================================================== *)

(** A Plaid-like endpoint over a fixed record set [all]: it reports
    [len(all)] as the total and returns the window the request's
    [options] select, [default_count] records from offset 0 when the
    request carries none. *)
Definition paged_transactions_get (all : list Transaction) (default_count : nat)
    (req : TransactionsGetRequest) : exn + TransactionsGetResponse :=
  let count :=
    match req_options req with
    | Some {| opt_count := Some c |} => Z.to_nat c
    | _ => default_count
    end in
  let offset :=
    match req_options req with
    | Some {| opt_offset := Some o |} => Z.to_nat o
    | _ => O
    end in
  inr {| resp_transactions := Some (firstn count (skipn offset all));
         resp_total_transactions := Some (Z.of_nat (length all)) |}.

Definition sample_transaction (id account : string) : Transaction :=
  {| txn_transaction_id := id; txn_account_id := account;
     txn_amount := PyFloat 5429923366061507 (-42);
     txn_date := 739000; txn_name := Some "Coffee"; txn_merchant_name := None;
     txn_category := Some (Some ["Food"]); txn_pending := Some false;
     txn_payment_channel := Some "in store"; txn_transaction_type := Some "place";
     txn_location := None |}.

Definition sample_account (id : string) : Account :=
  {| acc_account_id := id; acc_name := Some "Checking"; acc_official_name := None;
     acc_type := Some "depository"; acc_subtype := Some "checking";
     acc_mask := Some "0000";
     acc_balances := {| bal_current := Some (PyInt 110);
                        bal_available := Some (PyInt 100);
                        bal_iso_currency_code := Some "USD" |} |}.

Definition digit_string (n : nat) : string :=
  String (ascii_of_nat (48 + n mod 10)) EmptyString.

(** ["t000" .. "t999"] and ["a000" .. "a999"] *)
Definition sample_id (letter : string) (n : nat) : string :=
  String.append letter
    (String.append (digit_string (n / 100))
       (String.append (digit_string (n / 10)) (digit_string n))).

Definition sample_transactions (n : nat) : list Transaction :=
  map (fun i => sample_transaction (sample_id "t" i) "a000") (seq 0 n).

Definition sample_accounts (n : nat) : list Account :=
  map (fun i => sample_account (sample_id "a" i)) (seq 0 n).

(** A clock that advances one microsecond per reading on day 739200. *)
Definition sample_clock (n : nat) : pydatetime :=
  mk_datetime 739200 (43200000000 + Z.of_nat n).

Definition sample_str_of (v : pyval) : string := "<str>".

(** Plaid holding [accounts] and [transactions], 100 transactions per
    page, and an empty database server. *)
Definition sample_env (accounts : list Account) (transactions : list Transaction)
  : environment :=
  {| clock := sample_clock;
     transactions_get := paged_transactions_get transactions 100;
     accounts_get := fun _ => inr {| resp_accounts := Some accounts |};
     item_public_token_exchange :=
       fun _ => inr {| resp_access_token := Some "access-sandbox";
                       resp_item_id := Some "item-1" |};
     pg_server := inr ∅;
     str_of := sample_str_of |}.

(** 2 accounts and 150 transactions, as in the end-to-end scenario. *)
Definition env150 : environment :=
  sample_env (sample_accounts 2) (sample_transactions 150).

(** An ETL object with an access token and no connection yet. *)
Definition fresh_etl : etl :=
  mk_etl (Some "access-sandbox") None None "bucket" "daily/".

(** A connection to a server that holds the two empty tables. *)
Definition empty_tables : Pg.database := Basic.ddl ∅.

Definition connected_etl (db : Pg.database) : etl :=
  mk_etl (Some "access-sandbox") None (Some (Pg.connect db)) "bucket" "daily/".


(** Plaid holding one account and one transaction that belongs to an
    account the item does not list. *)
Definition env_orphan : environment :=
  sample_env [sample_account "a000"] [sample_transaction "t000" "a999"].



(** Two clock readings of the export utility within one second. *)
Definition reading_early : PgToS3.utc_time := PgToS3.mk_utc 2025 2 13 12 13 55 1.
Definition reading_late : PgToS3.utc_time := PgToS3.mk_utc 2025 2 13 12 13 55 900000.

(** A server that holds account [a000] and its transaction [t000], as
    the basic script leaves it after one run. *)
Definition seeded_db : Pg.database :=
  Eval vm_compute in
  match pg_conn (Basic.run (sample_env [sample_account "a000"]
                                       [sample_transaction "t000" "a000"])
                           1 None None fresh_etl world0).1.2 with
  | Some c => Pg.committed c
  | None => ∅
  end.

(** Transaction [t000] again, renamed and moved to an account that is
    not stored. *)
Definition moved_transaction : Transaction :=
  {| txn_transaction_id := "t000"; txn_account_id := "a999";
     txn_amount := PyInt 12; txn_date := 739001;
     txn_name := Some "Refund"; txn_merchant_name := None;
     txn_category := None; txn_pending := Some true;
     txn_payment_channel := Some "online"; txn_transaction_type := Some "special";
     txn_location := None |}.

(* ===================================================================== *)
(** * Tactics                                                             *)
(* ===================================================================== *)

(** [x ∉ [c1; ..; cn]] for distinct string constants. *)
Ltac solve_not_in_list :=
  let H := fresh in
  intros H; simpl in H;
  repeat (apply elem_of_cons in H as [H|H]; [discriminate|]);
  by apply elem_of_nil in H.

(** [x ∈ [c1; ..; cn] -> is_Some (row !! x)] when the row has every [ci]. *)
Ltac solve_in_columns :=
  let H := fresh in
  intros H; simpl in H;
  repeat (apply elem_of_cons in H as [->|H]; [eexists; reflexivity|]);
  by apply elem_of_nil in H.


(* ===================================================================== *)
(** * Properties of the extract step                                      *)
(* ===================================================================== *)

Section Extract.
Variable env : environment.








(** Whatever the loop returns is the list it started from followed by
    copies of the one page the endpoint gives for the unchanged request. *)
Lemma basic_fetch_rest_repeats fuel token s e total resp page :
  transactions_get env (Basic.make_request token s e) = inr resp ->
  resp_transactions resp = Some page ->
  forall transactions w l w',
    Basic.fetch_rest env fuel token s e total transactions w = (Returned l, w') ->
    exists k : nat, l = transactions ++ concat (replicate k page).
Proof.
  intros Hget Hpage.
  induction fuel as [|fuel IH]; intros transactions w l w'; simpl.
  - destruct (Z.of_nat (length transactions) <? total); [discriminate|].
    intros [= <- _]. exists O. simpl. by rewrite app_nil_r.
  - destruct (Z.of_nat (length transactions) <? total).
    + rewrite Hget, Hpage. intros H.
      destruct (IH _ _ _ _ H) as [k ->].
      exists (S k). simpl. by rewrite <- app_assoc.
    + intros [= <- _]. exists O. simpl. by rewrite app_nil_r.
Qed.



End Extract.



(** C1. Against a source that holds 150 transactions and serves 100 per
    page, [extract_transactions] of either script sends the same
    request twice (no offset in either) and returns 200 records: the
    first page followed by the first page again.  The result is not the
    150 records of the source and it holds duplicates. *)
Theorem extract_transactions_refetches_first_page (fuel : nat) :
  let all := sample_transactions 150 in
  let page1 := firstn 100 all in
  let req := first_request env150 (Some "access-sandbox") None None world0 in
  let basic :=
    Basic.extract_transactions env150 (S fuel) (Some "access-sandbox") None None world0 in
  let detailed :=
    Detailed.extract_transactions env150 (S fuel) (Some "access-sandbox") None None world0 in
  basic.1 = Returned (page1 ++ page1)
  /\ sent basic.2 = [req; req]
  /\ detailed.1 = Returned (page1 ++ page1)
  /\ sent detailed.2 = [req; req]
  /\ req_options req = None
  /\ length (page1 ++ page1) = 200%nat
  /\ ~ NoDup (txn_transaction_id <$> (page1 ++ page1)).
Proof.
  cbv zeta. repeat split.
  1-4: destruct fuel; vm_compute; reflexivity.
  apply (bool_decide_eq_false_1 (NoDup _)). vm_compute. reflexivity.
Qed.

(* ===================================================================== *)
(** * The object key of an export                                         *)
(* ===================================================================== *)

Lemma append_inj_l (a b c : string) :
  String.append a b = String.append a c -> b = c.
Proof.
  induction a as [|x a IH]; simpl; intros H; [exact H|].
  injection H as H. auto.
Qed.

Lemma append_inj_r (a b c : string) :
  String.length a = String.length b ->
  String.append a c = String.append b c -> a = b.
Proof.
  revert b. induction a as [|x a IH]; intros [|y b]; simpl; try discriminate.
  - reflexivity.
  - intros Hl H. injection Hl as Hl. inversion H; subst. f_equal. auto.
Qed.

Lemma digit_inj (n m : Z) :
  PgToS3.digit n = PgToS3.digit m -> n mod 10 = m mod 10.
Proof.
  unfold PgToS3.digit. intros H.
  pose proof (Z.mod_pos_bound n 10 eq_refl).
  pose proof (Z.mod_pos_bound m 10 eq_refl).
  apply (f_equal N_of_ascii) in H.
  rewrite !N_ascii_embedding in H by lia.
  lia.
Qed.

Lemma decimal4 (a : Z) :
  0 <= a <= 9999 ->
  a = 1000 * ((a / 1000) mod 10) + 100 * ((a / 100) mod 10)
      + 10 * ((a / 10) mod 10) + a mod 10.
Proof.
  intros Ha.
  pose proof (Z.div_mod a 10 ltac:(lia)) as H1.
  pose proof (Z.div_mod (a / 10) 10 ltac:(lia)) as H2.
  pose proof (Z.div_mod (a / 100) 10 ltac:(lia)) as H3.
  rewrite Z.div_div in H2 by lia. change (10 * 10) with 100 in H2.
  rewrite Z.div_div in H3 by lia. change (100 * 10) with 1000 in H3.
  assert (0 <= a / 1000 < 10) as H4.
  { split; [apply Z.div_pos; lia | apply Z.div_lt_upper_bound; lia]. }
  rewrite (Z.mod_small (a / 1000) 10) by lia.
  generalize dependent (a / 1000). generalize dependent (a / 100).
  generalize dependent (a / 10). intros. lia.
Qed.

Lemma decimal2 (a : Z) :
  0 <= a <= 99 -> a = 10 * ((a / 10) mod 10) + a mod 10.
Proof.
  intros Ha.
  pose proof (Z.div_mod a 10 ltac:(lia)) as H1.
  assert (0 <= a / 10 < 10) as H4.
  { split; [apply Z.div_pos; lia | apply Z.div_lt_upper_bound; lia]. }
  rewrite (Z.mod_small (a / 10) 10) by lia.
  generalize dependent (a / 10). intros. lia.
Qed.

Lemma strftime_compact_inj (t1 t2 : PgToS3.utc_time) :
  PgToS3.well_formed t1 -> PgToS3.well_formed t2 ->
  PgToS3.strftime_compact t1 = PgToS3.strftime_compact t2 ->
  PgToS3.to_second t1 = PgToS3.to_second t2.
Proof.
  unfold PgToS3.well_formed, PgToS3.to_second.
  destruct t1 as [y1 mo1 d1 h1 mi1 s1 u1], t2 as [y2 mo2 d2 h2 mi2 s2 u2]; simpl.
  intros (Wy1 & Wm1 & Wd1 & Wh1 & Wi1 & Ws1 & _)
         (Wy2 & Wm2 & Wd2 & Wh2 & Wi2 & Ws2 & _) H.
  cbv [PgToS3.strftime_compact PgToS3.pad4 PgToS3.pad2 String.append
       PgToS3.year PgToS3.month PgToS3.day PgToS3.hour PgToS3.minute
       PgToS3.second] in H.
  injection H as Hy1 Hy2 Hy3 Hy4 Hm1 Hm2 Hd1 Hd2 Hh1 Hh2 Hi1 Hi2 Hs1 Hs2.
  apply digit_inj in Hy1, Hy2, Hy3, Hy4, Hm1, Hm2, Hd1, Hd2, Hh1, Hh2,
    Hi1, Hi2, Hs1, Hs2.
  rewrite (decimal4 y1), (decimal4 y2), (decimal2 mo1), (decimal2 mo2),
    (decimal2 d1), (decimal2 d2), (decimal2 h1), (decimal2 h2),
    (decimal2 mi1), (decimal2 mi2), (decimal2 s1), (decimal2 s2) by lia.
  congruence.
Qed.

(** C6, as the code has it. The key of an export is the normalised
    prefix, the table name, a dot, the UTC start time printed to the
    second as [YYYYMMDDTHHMMSSZ], and [.csv].  Two exports of one table
    under one prefix get the same key exactly when their start times
    agree down to the second.  The export of the detailed ETL script
    names its object by prefix and table alone. *)
Theorem export_key_distinct_per_second
    (s3_prefix : option string) (table_name : string) (t1 t2 : PgToS3.utc_time) :
  PgToS3.well_formed t1 -> PgToS3.well_formed t2 ->
  PgToS3.s3_key s3_prefix table_name t1
  = String.append (PgToS3.key_prefix s3_prefix)
      (String.append table_name
         (String.append "." (String.append (PgToS3.strftime_compact t1) ".csv")))
  /\ (PgToS3.s3_key s3_prefix table_name t1 = PgToS3.s3_key s3_prefix table_name t2
      <-> PgToS3.to_second t1 = PgToS3.to_second t2)
  /\ (forall pfx, Detailed.s3_key pfx table_name
                  = String.append pfx (String.append table_name ".csv")).
Proof.
  intros W1 W2. split; [reflexivity|]. split; [split|reflexivity].
  - unfold PgToS3.s3_key, PgToS3.timestamp_now. intros H.
    apply append_inj_l in H. apply append_inj_l in H.
    apply (append_inj_l ".") in H.
    apply strftime_compact_inj; [assumption..|].
    apply (append_inj_r _ _ ".csv"); [reflexivity | exact H].
  - unfold PgToS3.s3_key, PgToS3.timestamp_now, PgToS3.strftime_compact,
      PgToS3.to_second.
    intros [= -> -> -> -> -> ->]. reflexivity.
Qed.

Lemma export_key_distinct_per_second_witness :
  PgToS3.s3_key (Some "daily") "accounts" reading_early
  = PgToS3.s3_key (Some "daily") "accounts" reading_late
  <-> PgToS3.to_second reading_early = PgToS3.to_second reading_late.
Proof.
  refine (proj1 (proj2 (export_key_distinct_per_second (Some "daily") "accounts"
                          reading_early reading_late _ _)));
    unfold PgToS3.well_formed; simpl; lia.
Defined.

(** C6, as the claim states it, fails: two exports of [accounts] that
    start at different times within the same second get one key. *)
Lemma export_keys_collide_within_a_second :
  reading_early <> reading_late
  /\ PgToS3.s3_key (Some "daily") "accounts" reading_early
     = PgToS3.s3_key (Some "daily") "accounts" reading_late.
Proof. split; [discriminate | reflexivity]. Qed.

(* ===================================================================== *)
(** * Empty batches                                                       *)
(* ===================================================================== *)

(** C7, as the code has it. An empty batch is a no-op that raises
    nothing: the loaders of the basic script return [None] at once,
    leaving the ETL object (and so the connection and the store) and the
    world untouched, and [upsert_table] of the detailed script prints
    that there is no data and returns [None], the object untouched.  No
    statement is sent and no counts are returned or printed; this holds
    whatever state the connection is in, even without one. *)
Theorem upsert_empty_batch_is_noop (env : environment) (self : etl) (w : world) :
  Basic.load_accounts env [] self w = (Returned RetNone, self, w)
  /\ Basic.load_transactions env [] self w = (Returned RetNone, self, w)
  /\ forall table_name conflict_column,
       Detailed.upsert_table env table_name [] conflict_column self w
       = (Returned RetNone, self, say (LogNoData table_name) w).
Proof. repeat split. Qed.

(** C7, as the claim states it, fails: on an empty batch no function
    returns the mapping with two zero counts. *)
Lemma upsert_empty_batch_returns_no_counts :
  (Basic.load_accounts env150 [] (connected_etl empty_tables) world0).1.1
  <> Returned (RetCounts 0 0)
  /\ (Detailed.upsert_table env150 "accounts" [] "account_id"
        (connected_etl empty_tables) world0).1.1
     <> Returned (RetCounts 0 0).
Proof. split; discriminate. Qed.

(* ===================================================================== *)
(** * Failure handling of [run]                                           *)
(* ===================================================================== *)

Lemma basic_ensure_token_conn env self w :
  pg_conn (Basic.ensure_token env self w).1.2 = pg_conn self.
Proof.
  unfold Basic.ensure_token.
  destruct (truthy_str (plaid_access_token self)); [reflexivity|].
  destruct (truthy_str (plaid_public_token self)) eqn:Ep; [|reflexivity].
  unfold bind, print, Basic.exchange_public_token. simpl.
  destruct (plaid_public_token self) as [tok|]; [|reflexivity].
  rewrite Ep. simpl.
  destruct (item_public_token_exchange env tok) as [x|resp]; [reflexivity|].
  destruct (resp_access_token resp); reflexivity.
Qed.

(** What the [except] and [finally] clauses of the basic [run] do to the
    result of any [try] body. *)
Lemma basic_guard_releases {A : Type} (body : action A) self w :
  let r := try_except_finally body Basic.on_failure Basic.release self w in
  let b := body self w in
  match b.1.1 with
  | Returned a =>
      r.1.1 = Returned a
      /\ pg_conn r.1.2 = fmap Pg.close (pg_conn b.1.2)
      /\ stdout r.2
         = stdout b.2 ++ match pg_conn b.1.2 with
                         | Some _ => [LogConnectionClosed]
                         | None => []
                         end
  | Raised e =>
      r.1.1 = Raised e
      /\ pg_conn r.1.2 = fmap (fun c => Pg.close (Pg.rollback c)) (pg_conn b.1.2)
      /\ stdout r.2
         = stdout b.2 ++ LogFailed e :: match pg_conn b.1.2 with
                                        | Some _ => [LogConnectionClosed]
                                        | None => []
                                        end
  | OutOfFuel => r.1.1 = OutOfFuel
  end.
Proof.
  cbv zeta. unfold try_except_finally.
  destruct (body self w) as [[[a|e|] s1] w1]; simpl.
  - unfold Basic.release. destruct s1 as [? ? [c|] ? ?]; simpl; rewrite ?app_nil_r; auto.
  - unfold Basic.on_failure, bind, print, Basic.release. simpl.
    destruct s1 as [? ? [c|] ? ?]; simpl; rewrite <- ?app_assoc; auto.
  - reflexivity.
Qed.

(** The basic [run], started without a connection: whenever it returns
    or raises, a connection it opened is closed with nothing pending;
    and when it raises with a connection opened, the exception went
    through the [except] clause: it was printed, the transaction rolled
    back, the connection closed, and the same exception raised again. *)
Lemma basic_run_releases_connection env fuel start_date end_date self w :
  pg_conn self = None ->
  let r := Basic.run env fuel start_date end_date self w in
  r.1.1 <> OutOfFuel ->
  (forall c, pg_conn r.1.2 = Some c ->
     Pg.closed c = true /\ Pg.aborted c = false /\ Pg.working c = Pg.committed c)
  /\ (forall e c, r.1.1 = Raised e -> pg_conn r.1.2 = Some c ->
        exists out, stdout r.2 = out ++ [LogFailed e; LogConnectionClosed]).
Proof.
  intros Hnone. cbv zeta. unfold Basic.run, bind.
  pose proof (basic_ensure_token_conn env self w) as Hconn.
  destruct (Basic.ensure_token env self w) as [[[[]|e|] s1] w1]; simpl in *.
  - pose proof (basic_guard_releases
                  (Basic.run_body env fuel start_date end_date) s1 w1) as H.
    cbv zeta in H.
    destruct (try_except_finally _ _ _ s1 w1) as [[r s2] w2]; simpl in *.
    destruct (Basic.run_body env fuel start_date end_date s1 w1)
      as [[[a|e|] s3] w3]; simpl in *.
    + destruct H as (-> & Hc & Hout). intros _. split.
      * intros c Hs. rewrite Hc in Hs. destruct (pg_conn s3); [|discriminate].
        by injection Hs as <-.
      * intros e c [=].
    + destruct H as (-> & Hc & Hout). intros _. split.
      * intros c Hs. rewrite Hc in Hs. destruct (pg_conn s3); [|discriminate].
        by injection Hs as <-.
      * intros e' c [= <-] Hs. rewrite Hc in Hs.
        destruct (pg_conn s3); [|discriminate].
        exists (stdout w3). exact Hout.
    + intros Hr. by destruct Hr.
  - intros _. rewrite Hconn, Hnone. split; [intros c [=] | intros e' c _ [=]].
  - intros Hr. by destruct Hr.
Qed.


(* ===================================================================== *)
(** * One upsert statement                                                *)
(* ===================================================================== *)

Section RowLoopFacts.
Context {R : Type} (merge : R -> R -> R).

Lemma flags_of_insert_fresh (tbl : gmap string R) k x rows :
  k ∉ rows.*1 -> Pg.flags_of (<[k := x]> tbl) rows = Pg.flags_of tbl rows.
Proof.
  unfold Pg.flags_of. induction rows as [|[k' r] rows IH]; [done|].
  rewrite !fmap_cons. simpl. intros Hk.
  apply not_elem_of_cons in Hk as [Hne Hk].
  rewrite lookup_insert_ne by done. f_equal. auto.
Qed.

(** A statement whose keys are pairwise distinct and untouched goes through. *)
Lemma upsert_rows_ok (rows : list (string * R)) :
  forall (tbl : gmap string R) (touched : gset string),
    NoDup rows.*1 ->
    Forall (fun k => k ∉ touched) rows.*1 ->
    Pg.upsert_rows merge tbl touched rows
    = inr (Pg.apply_rows merge tbl rows, Pg.flags_of tbl rows).
Proof.
  induction rows as [|[k r] rows IH]; intros tbl touched Hnd Hfresh; simpl.
  - reflexivity.
  - apply NoDup_cons in Hnd as [Hk Hnd].
    apply Forall_cons in Hfresh as [Hkt Hfresh].
    destruct (decide (k ∈ touched)) as [|_]; [done|].
    assert (Forall (fun k' => k' ∉ ({[k]} ∪ touched : gset string)) rows.*1) as Hf.
    { apply Forall_forall. intros k' Hk'.
      rewrite Forall_forall in Hfresh. specialize (Hfresh k' Hk').
      intros [Hx|Hx]%elem_of_union; [|done].
      apply elem_of_singleton in Hx as ->. done. }
    change (Pg.apply_rows merge tbl ((k, r) :: rows))
      with (Pg.apply_rows merge (<[k := Pg.upd merge (tbl !! k) r]> tbl) rows).
    change (Pg.flags_of tbl ((k, r) :: rows))
      with ((k, bool_decide (tbl !! k = None)) :: Pg.flags_of tbl rows).
    destruct (tbl !! k) as [old|] eqn:Hlook; simpl.
    + rewrite (IH _ _ Hnd Hf), flags_of_insert_fresh by done.
      reflexivity.
    + rewrite (IH _ _ Hnd Hf), flags_of_insert_fresh by done.
      reflexivity.
Qed.

(** A statement goes through only if its keys are pairwise distinct. *)
Lemma upsert_rows_inv (rows : list (string * R)) :
  forall (tbl : gmap string R) (touched : gset string) res,
    Pg.upsert_rows merge tbl touched rows = inr res ->
    NoDup rows.*1 /\ Forall (fun k => k ∉ touched) rows.*1.
Proof.
  induction rows as [|[k r] rows IH]; intros tbl touched res; simpl.
  - intros _. split; constructor.
  - destruct (decide (k ∈ touched)) as [|Hk]; [done|].
    destruct (match tbl !! k with
              | Some old => (<[k := merge old r]> tbl, false)
              | None => (<[k := r]> tbl, true)
              end) as [tbl1 fresh].
    destruct (Pg.upsert_rows merge tbl1 ({[k]} ∪ touched) rows) as [|[t f]] eqn:E;
      [done|].
    intros _. destruct (IH _ _ _ E) as [Hnd Hf].
    rewrite Forall_forall in Hf. split.
    + constructor; [|done]. intros Hin. apply (Hf k Hin).
      apply elem_of_union_l. by apply elem_of_singleton.
    + constructor; [done|]. apply Forall_forall. intros k' Hk' Hx.
      apply (Hf k' Hk'). by apply elem_of_union_r.
Qed.

Lemma replay_app (o : option R) rs1 rs2 :
  Pg.replay merge o (rs1 ++ rs2) = Pg.replay merge (Pg.replay merge o rs1) rs2.
Proof. unfold Pg.replay. apply foldl_app. Qed.

Lemma rows_for_app k (r1 r2 : list (string * R)) :
  Pg.rows_for k (r1 ++ r2) = Pg.rows_for k r1 ++ Pg.rows_for k r2.
Proof. unfold Pg.rows_for. by rewrite filter_app, fmap_app. Qed.

Lemma rows_for_absent k (rows : list (string * R)) :
  k ∉ rows.*1 -> Pg.rows_for k rows = [].
Proof.
  unfold Pg.rows_for. induction rows as [|[k' r] rows IH]; simpl; [done|].
  intros Hk. apply not_elem_of_cons in Hk as [Hne Hk].
  rewrite filter_cons_False by (simpl; congruence). auto.
Qed.

Lemma rows_for_nonempty k (rows : list (string * R)) :
  k ∈ rows.*1 -> Pg.rows_for k rows <> [].
Proof.
  unfold Pg.rows_for. induction rows as [|[k' r] rows IH]; simpl.
  - intros H. by apply elem_of_nil in H.
  - intros H. destruct (decide (k' = k)) as [->|Hne].
    + rewrite filter_cons_True by done. done.
    + rewrite filter_cons_False by (simpl; congruence).
      apply elem_of_cons in H as [?|?]; [congruence|auto].
Qed.

(** Every row of the table after the statement is the stored row with
    the rows proposed under its key played onto it. *)
Lemma apply_rows_lookup (rows : list (string * R)) :
  forall (tbl : gmap string R) k,
    Pg.apply_rows merge tbl rows !! k
    = Pg.replay merge (tbl !! k) (Pg.rows_for k rows).
Proof.
  unfold Pg.apply_rows, Pg.replay, Pg.rows_for.
  induction rows as [|[k0 r0] rows IH]; intros tbl k; simpl; [done|].
  rewrite IH. destruct (decide (k0 = k)) as [->|Hne].
  - rewrite filter_cons_True by done. simpl. by rewrite lookup_insert_eq.
  - rewrite filter_cons_False by (simpl; congruence).
    by rewrite lookup_insert_ne.
Qed.

Lemma replay_is_Some (o : option R) rs :
  is_Some o \/ rs <> [] -> is_Some (Pg.replay merge o rs).
Proof.
  unfold Pg.replay. revert o. induction rs as [|r rs IH]; intros o; simpl.
  - intros [H|H]; [done|congruence].
  - intros _. apply IH. left. eauto.
Qed.

Lemma replay_None_inv (o : option R) rs :
  Pg.replay merge o rs = None -> o = None /\ rs = [].
Proof.
  intros H. destruct o as [x|].
  - destruct (replay_is_Some (Some x) rs) as [y Hy]; [left; eauto|]. congruence.
  - destruct rs as [|r rs]; [done|].
    destruct (replay_is_Some None (r :: rs)) as [y Hy]; [by right|]. congruence.
Qed.

Lemma apply_rows_dom (rows : list (string * R)) (tbl : gmap string R) :
  dom (Pg.apply_rows merge tbl rows) = dom tbl ∪ list_to_set rows.*1.
Proof.
  apply set_eq. intros k.
  rewrite elem_of_dom, apply_rows_lookup, elem_of_union, elem_of_dom,
    elem_of_list_to_set.
  split.
  - intros Hs. destruct (tbl !! k) eqn:E; [left; eauto|]. right.
    destruct (decide (k ∈ rows.*1)) as [|Hn]; [done|].
    rewrite rows_for_absent in Hs by done. simpl in Hs. by destruct Hs.
  - intros [H|H]; apply replay_is_Some; [by left|right].
    by apply rows_for_nonempty.
Qed.

End RowLoopFacts.

Section Statement.
Variable q : Pg.upsert_query.

Let merge := Pg.excluded_merge (Pg.q_set q).

(** What a statement that goes through has done. *)
Lemma exec_upsert_inv db page db' res :
  Pg.exec_upsert db q page = inr (db', res) ->
  exists T rows,
    db !! Pg.q_table q = Some T
    /\ Pg.keyed_all q page = inr rows
    /\ NoDup rows.*1
    /\ Pg.fk_violation db q T (Pg.apply_rows merge T rows) (Pg.flags_of T rows) = None
    /\ db' = <[Pg.q_table q := Pg.apply_rows merge T rows]> db
    /\ res = (if Pg.q_returning q then Some (Pg.flags_of T rows).*2 else None).
Proof.
  unfold Pg.exec_upsert. intros H.
  destruct (db !! Pg.q_table q) as [T|]; [|done].
  destruct (negb _); [done|].
  destruct (Pg.keyed_all q page) as [|rows]; [done|].
  destruct (Pg.upsert_rows _ T ∅ rows) as [|[T1 flags]] eqn:E; [done|].
  destruct (upsert_rows_inv _ _ _ _ _ E) as [Hnd Hf].
  rewrite (upsert_rows_ok _ _ _ _ Hnd Hf) in E. injection E as <- <-.
  fold merge in H.
  destruct (Pg.fk_violation db q T _ _) eqn:Hfk; [done|].
  injection H as <- <-. exists T, rows. done.
Qed.

(** When a statement goes through. *)
Lemma exec_upsert_ok db page T rows :
  db !! Pg.q_table q = Some T ->
  Pg.pk_column (Pg.schema (Pg.q_table q)) = Pg.q_conflict q ->
  Pg.keyed_all q page = inr rows ->
  NoDup rows.*1 ->
  Pg.fk_violation db q T (Pg.apply_rows merge T rows) (Pg.flags_of T rows) = None ->
  Pg.exec_upsert db q page
  = inr (<[Pg.q_table q := Pg.apply_rows merge T rows]> db,
         if Pg.q_returning q then Some (Pg.flags_of T rows).*2 else None).
Proof.
  intros HT Hpk Hkeyed Hnd Hfk. unfold Pg.exec_upsert.
  rewrite HT, Hpk, String.eqb_refl, Hkeyed. simpl.
  rewrite upsert_rows_ok; [|done|].
  - fold merge. by rewrite Hfk.
  - apply Forall_forall. intros k _. apply not_elem_of_empty.
Qed.

(** On a usable connection [execute_pages] is [run_pages] on the working
    database; the committed database is never touched, and a failure
    leaves the connection open. *)
Lemma execute_pages_run pages :
  forall c cur,
    Pg.usable c ->
    match Pg.run_pages (Pg.working c) cur q pages with
    | inr (db', cur') =>
        Pg.execute_pages c cur q pages
        = (inr cur', Pg.mk_connection (Pg.committed c) db' false false)
    | inl e =>
        exists c',
          Pg.execute_pages c cur q pages = (inl e, c')
          /\ Pg.committed c' = Pg.committed c
          /\ Pg.closed c' = false /\ Pg.aborted c' = true
    end.
Proof.
  induction pages as [|page pages IH]; intros c cur [Hc Ha]; simpl.
  - destruct c; simpl in *; subst; reflexivity.
  - unfold Pg.execute. rewrite Hc, Ha.
    destruct (Pg.exec_upsert (Pg.working c) q page) as [e|[db1 cur1]].
    + eexists. split; [reflexivity|]. simpl. auto.
    + specialize (IH (Pg.mk_connection (Pg.committed c) db1 false false) cur1).
      simpl in IH. apply IH. done.
Qed.

End Statement.

(* ===================================================================== *)
(** * Paging and the loaders                                              *)
(* ===================================================================== *)



Lemma set_conn_set_conn self a b : set_conn (set_conn self a) b = set_conn self b.
Proof. reflexivity. Qed.

Lemma excluded_merge_lookup S (old new : Pg.row) c :
  Pg.excluded_merge S old new !! c
  = if decide (c ∈ S)
    then match new !! c with Some v => Some v | None => old !! c end
    else old !! c.
Proof.
  unfold Pg.excluded_merge. induction S as [|s S IH].
  - destruct (decide (c ∈ [])) as [H|]; [by apply elem_of_nil in H|done].
  - cbn [foldr].
    assert (c ∈ s :: S <-> s = c \/ c ∈ S) as Hiff.
    { rewrite elem_of_cons. split; intros [?|?]; auto. }
    destruct (decide (s = c)) as [->|Hne].
    + destruct (decide (c ∈ c :: S)) as [_|Hn]; [|tauto].
      destruct (new !! c) as [v|] eqn:E.
      * by rewrite lookup_insert_eq.
      * rewrite IH. by destruct (decide (c ∈ S)).
    + assert (new !! s = new !! s) as _ by done.
      destruct (new !! s) as [v|].
      * rewrite lookup_insert_ne by done. rewrite IH.
        destruct (decide (c ∈ S)), (decide (c ∈ s :: S)); tauto || done.
      * rewrite IH.
        destruct (decide (c ∈ S)), (decide (c ∈ s :: S)); tauto || done.
Qed.

(** The referential check passes for a row the statement updated when
    the reference is not in the SET list, and for a row it inserted when
    the row it refers to exists. *)
Lemma fk_holds_update db fk S (T T' : Pg.table) k old new :
  T !! k = Some old ->
  T' !! k = Some (Pg.excluded_merge S old new) ->
  fk.1 ∉ S ->
  Pg.fk_holds db fk T T' k = true.
Proof.
  intros HT HT' HS. unfold Pg.fk_holds. rewrite HT'.
  rewrite excluded_merge_lookup.
  destruct (decide (fk.1 ∈ S)) as [Hin|_]; [by destruct HS|].
  destruct (old !! fk.1) as [v|] eqn:E; [|reflexivity].
  assert (T !! k ≫= (fun o : Pg.row => o !! fk.1) = Some v) as Hsame.
  { rewrite HT. simpl. exact E. }
  destruct v; try reflexivity; by rewrite bool_decide_eq_true_2.
Qed.

Lemma fk_holds_insert db fk (T T' : Pg.table) k r a :
  T !! k = None ->
  T' !! k = Some r ->
  r !! fk.1 = Some (PyStr a) ->
  Pg.fk_holds db fk T T' k
  = bool_decide (is_Some (default ∅ (db !! fk.2) !! a)).
Proof.
  intros HT HT' Hr. unfold Pg.fk_holds. rewrite HT', Hr, HT. reflexivity.
Qed.

Lemma fk_violation_none_intro db q T T' flags :
  (forall fk k, Pg.fk_column (Pg.schema (Pg.q_table q)) = Some fk ->
                k ∈ flags.*1 -> Pg.fk_holds db fk T T' k = true) ->
  Pg.fk_violation db q T T' flags = None.
Proof.
  intros H. unfold Pg.fk_violation.
  destruct (Pg.fk_column (Pg.schema (Pg.q_table q))) as [fk|]; [|done].
  specialize (H fk).
  induction (flags.*1) as [|k ks IH]; [done|].
  rewrite filter_cons_False.
  - apply IH. intros k' _ Hk'. apply H; [done|apply elem_of_cons; by right].
  - rewrite H; [done..|apply elem_of_cons; by left].
Qed.

Lemma fk_violation_none_elim db q T T' flags fk k :
  Pg.fk_violation db q T T' flags = None ->
  Pg.fk_column (Pg.schema (Pg.q_table q)) = Some fk ->
  k ∈ flags.*1 ->
  Pg.fk_holds db fk T T' k = true.
Proof.
  unfold Pg.fk_violation. intros H Hfk Hk. rewrite Hfk in H.
  induction (flags.*1) as [|k' ks IH]; [by apply elem_of_nil in Hk|].
  destruct (Pg.fk_holds db fk T T' k') eqn:E.
  - rewrite filter_cons_False in H by (rewrite E; done).
    apply elem_of_cons in Hk as [->|Hk]; [done|auto].
  - rewrite filter_cons_True in H by done. done.
Qed.

Lemma flags_of_keys {R : Type} (T : gmap string R) rows :
  (Pg.flags_of T rows).*1 = rows.*1.
Proof.
  unfold Pg.flags_of. rewrite <- list_fmap_compose. reflexivity.
Qed.

Lemma rows_for_NoDup {R : Type} k (r : R) rows :
  NoDup rows.*1 -> (k, r) ∈ rows -> Pg.rows_for k rows = [r].
Proof.
  induction rows as [|[k' r'] rows IH]; simpl.
  - intros _ H. by apply elem_of_nil in H.
  - intros Hnd H. apply NoDup_cons in Hnd as [Hk' Hnd].
    apply elem_of_cons in H as [[= <- <-]|H].
    + change (Pg.rows_for k ((k, r) :: rows)) with
        (snd <$> filter (fun kr : string * R => kr.1 = k) ((k, r) :: rows)).
      rewrite filter_cons_True by done. rewrite fmap_cons. simpl. f_equal.
      by apply rows_for_absent.
    + change (Pg.rows_for k ((k', r') :: rows)) with
        (snd <$> filter (fun kr : string * R => kr.1 = k) ((k', r') :: rows)).
      rewrite filter_cons_False.
      * by apply IH.
      * simpl. intros ->. apply Hk'.
        apply (list_elem_of_fmap_2 fst) in H. exact H.
Qed.

Section Loader.
Context {A : Type}.
Variable env : environment.
Variable q : Pg.upsert_query.
Variable tuple : A -> pydatetime -> pydatetime -> list pyval.
Variable key : A -> string.
Variable line : Z -> Z -> Z -> log_line.

Hypothesis tuple_key :
  forall x t1 t2,
    Pg.keyed q (tuple x t1 t2)
    = inr (key x, Pg.make_row (Pg.q_columns q) (tuple x t1 t2)).
Hypothesis conflict_is_pk :
  Pg.pk_column (Pg.schema (Pg.q_table q)) = Pg.q_conflict q.
Hypothesis returning : Pg.q_returning q = true.

Let merge := Pg.excluded_merge (Pg.q_set q).

(** The shape [load_accounts] and [load_transactions] share. *)
Let load (xs : list A) : action pyreturn :=
  match xs with
  | [] => ret RetNone
  | _ :: _ =>
      c <-- the_connection ;;
      fun self w =>
        let '(rows, w1) := stamped env tuple xs w in
        Basic.execute_and_report q rows line c self w1
  end.

(** The row a tuple of item [x] proposes, whatever its two timestamps. *)
Let proposes (x : A) (kr : string * Pg.row) : Prop :=
  exists t1 t2, kr = (key x, Pg.make_row (Pg.q_columns q) (tuple x t1 t2)).

Lemma stamped_keyed xs :
  forall w, exists krows,
    Pg.keyed_all q (stamped env tuple xs w).1 = inr krows
    /\ Forall2 proposes xs krows.
Proof.
  induction xs as [|x xs IH]; intros w; simpl.
  - exists []. split; [done|constructor].
  - destruct (IH (now env (now env w).2).2) as (krows & Hk & HF).
    unfold now in *. simpl in *.
    destruct (stamped env tuple xs _) as [rows w3]. simpl in *.
    rewrite tuple_key, Hk. eexists. split; [reflexivity|].
    constructor; [|done]. by eexists _, _.
Qed.

Lemma stamped_world xs :
  forall w,
    stdout (stamped env tuple xs w).2 = stdout w
    /\ sent (stamped env tuple xs w).2 = sent w
    /\ uploaded (stamped env tuple xs w).2 = uploaded w
    /\ ticks (stamped env tuple xs w).2 = (ticks w + 2 * length xs)%nat
    /\ length (stamped env tuple xs w).1 = length xs.
Proof.
  induction xs as [|x xs IH]; intros w; simpl.
  - repeat split; lia.
  - specialize (IH (now env (now env w).2).2).
    unfold now in *. simpl in *.
    destruct (stamped env tuple xs _) as [rows w3]. simpl in *.
    destruct IH as (-> & -> & -> & -> & ->). repeat split; lia.
Qed.



(** The tail of a loader when every page goes through: commit, print the
    counts of the last result set, return [None]. *)
Lemma execute_and_report_returns rows c self w db' result :
  Pg.usable c ->
  Pg.run_pages (Pg.working c) None q (Pg.paginate rows Pg.page_size)
  = inr (db', Some result) ->
  Basic.execute_and_report q rows line c self w
  = (Returned RetNone,
     set_conn self (Some (Pg.mk_connection db' db' false false)),
     say (line (Z.of_nat (length result)) (count_true result)
               (Z.of_nat (length result) - count_true result)) w).
Proof.
  intros Hu Hrun. unfold Basic.execute_and_report, Pg.execute_values.
  pose proof (execute_pages_run q (Pg.paginate rows Pg.page_size) c None Hu) as H.
  rewrite Hrun in H. rewrite H. reflexivity.
Qed.

(** The tail of a loader when a page fails: the error is raised, nothing
    is committed, the connection is left with its failed transaction. *)
Lemma execute_and_report_raises rows c self w e :
  Pg.usable c ->
  Pg.run_pages (Pg.working c) None q (Pg.paginate rows Pg.page_size) = inl e ->
  exists c',
    Basic.execute_and_report q rows line c self w
    = (Raised e, set_conn self (Some c'), w)
    /\ Pg.committed c' = Pg.committed c
    /\ Pg.closed c' = false /\ Pg.aborted c' = true.
Proof.
  intros Hu Hrun. unfold Basic.execute_and_report, Pg.execute_values.
  pose proof (execute_pages_run q (Pg.paginate rows Pg.page_size) c None Hu) as H.
  rewrite Hrun in H. destruct H as (c' & -> & Hc).
  exists c'. split; [reflexivity|exact Hc].
Qed.



End Loader.

(* ===================================================================== *)
(** * The two loaders of the basic script                                 *)
(* ===================================================================== *)

Lemma account_tuple_key a t1 t2 :
  Pg.keyed Basic.accounts_query (Basic.account_tuple a t1 t2)
  = inr (acc_account_id a,
         Pg.make_row (Pg.q_columns Basic.accounts_query) (Basic.account_tuple a t1 t2)).
Proof. reflexivity. Qed.

Lemma transaction_tuple_key t t1 t2 :
  Pg.keyed Basic.transactions_query (Basic.transaction_tuple t t1 t2)
  = inr (txn_transaction_id t,
         Pg.make_row (Pg.q_columns Basic.transactions_query)
                     (Basic.transaction_tuple t t1 t2)).
Proof. reflexivity. Qed.

Lemma transaction_tuple_account t t1 t2 :
  Pg.make_row (Pg.q_columns Basic.transactions_query)
              (Basic.transaction_tuple t t1 t2) !! "account_id"
  = Some (PyStr (txn_account_id t)).
Proof. reflexivity. Qed.

Lemma account_id_not_set : "account_id" ∉ Pg.q_set Basic.transactions_query.
Proof.
  intros H. simpl in H.
  repeat (apply elem_of_cons in H as [H|H]; [discriminate|]).
  by apply elem_of_nil in H.
Qed.




(** Beyond one page the counts cover the last statement only: for 101
    new accounts [load_accounts] stores 101 rows and prints 1. *)
Lemma load_accounts_counts_last_page_only :
  let r := Basic.load_accounts env150 (sample_accounts 101)
             (connected_etl empty_tables) world0 in
  stdout r.2 = [LogAccountsLoaded 1 1 0]
  /\ (fun c => size <$> (Pg.committed c !! "accounts")) <$> pg_conn r.1.2
     = Some (Some 101%nat).
Proof. cbv zeta. split; vm_compute; reflexivity. Qed.

(* ===================================================================== *)
(** * The foreign key of [transactions]                                   *)
(* ===================================================================== *)

Lemma keyed_all_Forall2 q page rows :
  Pg.keyed_all q page = inr rows <->
  Forall2 (fun t kr => Pg.keyed q t = inr kr) page rows.
Proof.
  revert rows. induction page as [|t page IH]; intros rows; simpl.
  - split; [intros [= <-]; constructor | by inversion 1].
  - destruct (Pg.keyed q t) as [e|kr] eqn:Ek.
    + split; [done|]. inversion 1; congruence.
    + destruct (Pg.keyed_all q page) as [e|krs] eqn:Eall.
      * split; [done|]. inversion 1 as [|? ? ? ? ? Hrest]; subst.
        apply IH in Hrest. done.
      * split.
        -- intros [= <-]. constructor; [done|]. by apply IH.
        -- inversion 1 as [|? ? ? ? Hk Hrest]; subst.
           apply IH in Hrest. congruence.
Qed.

Lemma paginate_from_concat {A : Type} (n : nat) (seq : list A) :
  forall (page : list A) (room : nat),
    (0 < n)%nat -> (0 < room)%nat ->
    concat (Pg.paginate_from n page room seq) = page ++ seq.
Proof.
  induction seq as [|x rest IH]; intros page room Hn Hroom; simpl.
  - destruct page; simpl; by rewrite ?app_nil_r.
  - destruct room as [|[|r]]; [lia| |].
    + simpl. rewrite IH by lia. simpl. by rewrite <- app_assoc.
    + rewrite IH by lia. by rewrite <- app_assoc.
Qed.

(** The pages of [execute_values] are the argument list, cut up. *)
Lemma paginate_concat {A : Type} (seq : list A) :
  concat (Pg.paginate seq Pg.page_size) = seq.
Proof.
  unfold Pg.paginate. rewrite paginate_from_concat; [done|..];
    unfold Pg.page_size; lia.
Qed.

Lemma stamped_app {A : Type} env (tuple : A -> pydatetime -> pydatetime -> list pyval)
    (xs ys : list A) :
  forall w,
    (stamped env tuple (xs ++ ys) w).1
    = (stamped env tuple xs w).1
      ++ (stamped env tuple ys (stamped env tuple xs w).2).1.
Proof.
  induction xs as [|x xs IH]; intros w; simpl; [done|].
  specialize (IH (now env (now env w).2).2).
  unfold now in *. simpl in *.
  destruct (stamped env tuple (xs ++ ys) _) as [rows w3].
  destruct (stamped env tuple xs _) as [rows1 w4]. simpl in *.
  by rewrite IH.
Qed.

Section Orphan.
Variable q : Pg.upsert_query.
Variables (fk : string * string) (k a : string) (r : Pg.row) (tup : list pyval).

Hypothesis has_fk : Pg.fk_column (Pg.schema (Pg.q_table q)) = Some fk.
Hypothesis other_table : Pg.q_table q <> fk.2.
Hypothesis tup_key : Pg.keyed q tup = inr (k, r).
Hypothesis tup_ref : r !! fk.1 = Some (PyStr a).

(** Pages that propose a row under a key that is not stored, before any
    other row under that key, and that refers to a row that is not
    stored, do not all go through. *)
Lemma orphan_blocks_pages pages :
  forall db cur (T : Pg.table) pre post,
    db !! Pg.q_table q = Some T ->
    T !! k = None ->
    default ∅ (db !! fk.2) !! a = None ->
    concat pages = pre ++ tup :: post ->
    Forall (fun t => forall kr, Pg.keyed q t = inr kr -> kr.1 <> k) pre ->
    exists e, Pg.run_pages db cur q pages = inl e.
Proof.
  induction pages as [|page pages IH]; intros db cur T pre post HT Hk Ha Hcat Hpre.
  - simpl in Hcat. by destruct pre.
  - simpl. destruct (Pg.exec_upsert db q page) as [e|[db1 cur1]] eqn:E; [eauto|].
    apply exec_upsert_inv in E
      as (T0 & rows & HT0 & Hkeyed & Hnd & Hfk & -> & _).
    assert (T0 = T) as -> by congruence.
    apply keyed_all_Forall2 in Hkeyed.
    set (T1 := Pg.apply_rows (Pg.excluded_merge (Pg.q_set q)) T rows) in *.
    simpl in Hcat.
    assert (forall pre' rows',
              Forall2 (fun t kr => Pg.keyed q t = inr kr) pre' rows' ->
              Forall (fun t => forall kr, Pg.keyed q t = inr kr -> kr.1 <> k) pre' ->
              k ∉ rows'.*1) as Hfresh.
    { clear. intros pre' rows' HF.
      induction HF as [|t kr pre' rows' Hk _ IH']; intros HP.
      - apply not_elem_of_nil.
      - apply Forall_cons in HP as [Ht HP]. rewrite fmap_cons.
        apply not_elem_of_cons. split; [|auto].
        intros ->. by apply (Ht kr Hk). }
    apply app_eq_inv in Hcat as [(kk & Hpage & Hrest)|(kk & Hpre' & Hrest)].
    + destruct kk as [|t' kk].
      * (* the page is exactly [pre] *)
        rewrite app_nil_r in Hpage. subst page. simpl in Hrest.
        apply (IH _ cur1 T1 [] post).
        -- by rewrite lookup_insert_eq.
        -- unfold T1. rewrite apply_rows_lookup, rows_for_absent; [done|].
           by apply (Hfresh pre _).
        -- by rewrite lookup_insert_ne.
        -- by rewrite <- Hrest.
        -- constructor.
      * (* the tuple is in this page *)
        injection Hrest as <- Hpost. subst page.
        apply Forall2_app_inv_l in Hkeyed
          as (rows1 & rows2 & HF1 & HF2 & ->).
        inversion HF2 as [|? kr ? rows3 Hkr HF3]; subst.
        assert (kr = (k, r)) as -> by congruence.
        exfalso.
        assert (k ∉ rows1.*1) as Hk1 by (by apply (Hfresh pre rows1)).
        rewrite fmap_app, fmap_cons in Hnd. simpl in Hnd.
        apply NoDup_app in Hnd as (_ & _ & Hnd3).
        apply NoDup_cons in Hnd3 as [Hk3 _].
        assert (T1 !! k = Some r) as Hrow.
        { unfold T1. rewrite apply_rows_lookup, rows_for_app, Hk.
          rewrite (rows_for_absent k rows1) by done.
          change (Pg.rows_for k ((k, r) :: rows3))
            with (snd <$> filter (fun kr : string * Pg.row => kr.1 = k)
                                 ((k, r) :: rows3)).
          rewrite filter_cons_True by done. rewrite fmap_cons. simpl.
          fold (Pg.rows_for k rows3). by rewrite rows_for_absent. }
        pose proof (fk_violation_none_elim _ _ _ _ _ fk k Hfk has_fk) as Hok.
        rewrite (fk_holds_insert _ _ _ _ _ _ a Hk Hrow tup_ref) in Hok.
        rewrite bool_decide_eq_false_2 in Hok.
        -- discriminate Hok. rewrite flags_of_keys, fmap_app, fmap_cons.
           apply elem_of_app. right. apply elem_of_cons. by left.
        -- rewrite Ha. by intros [? ?].
    + (* the page lies before the tuple *)
      subst pre. apply Forall_app in Hpre as [Hpage Hkk].
      apply (IH _ cur1 T1 kk post).
      * by rewrite lookup_insert_eq.
      * unfold T1. rewrite apply_rows_lookup, rows_for_absent; [done|].
        by apply (Hfresh page _).
      * by rewrite lookup_insert_ne.
      * done.
      * done.
Qed.

End Orphan.

(** C5, as the code has it. When a batch holds a transaction whose id
    is not stored and does not occur earlier in the batch, and whose
    account is not stored, [load_transactions] raises, and the database
    committed on the connection is the one committed before the call:
    no row of the batch is committed.  The connection is left with its
    failed transaction, which the rollback of [run] discards. *)
Theorem load_transactions_orphan_fails
    (env : environment) (self : etl) (w : world) (c : Pg.connection)
    (T : Pg.table) (pre post : list Transaction) (t : Transaction) :
  pg_conn self = Some c ->
  Pg.usable c ->
  Pg.working c !! "transactions" = Some T ->
  T !! txn_transaction_id t = None ->
  txn_transaction_id t ∉ txn_transaction_id <$> pre ->
  default ∅ (Pg.working c !! "accounts") !! txn_account_id t = None ->
  exists e c' w',
    Basic.load_transactions env (pre ++ t :: post) self w
    = (Raised e, set_conn self (Some c'), w')
    /\ Pg.committed c' = Pg.committed c
    /\ Pg.aborted c' = true
    /\ Pg.working (Pg.rollback c') = Pg.committed c.
Proof.
  intros Hconn Hu HT Hnew Hfirst Horphan.
  unfold Basic.load_transactions.
  destruct (pre ++ t :: post) as [|t0 rest] eqn:Ebatch; [by destruct pre|].
  rewrite <- Ebatch. clear t0 rest Ebatch.
  unfold bind, the_connection. rewrite Hconn.
  unfold Basic.transaction_rows.
  pose proof (stamped_app env Basic.transaction_tuple pre (t :: post) w) as Happ.
  destruct (stamped env Basic.transaction_tuple (pre ++ t :: post) w)
    as [rows w1] eqn:Est.
  simpl in Happ.
  destruct (stamped_keyed env Basic.transactions_query Basic.transaction_tuple
              txn_transaction_id transaction_tuple_key pre w)
    as (krows & Hkeyed & HF).
  set (w2 := (stamped env Basic.transaction_tuple pre w).2) in *.
  unfold now in Happ. simpl in Happ.
  destruct (stamped env Basic.transaction_tuple post _) as [rows_post w3].
  simpl in Happ.
  set (t1 := clock env (ticks w2)) in *.
  set (t2 := clock env (S (ticks w2))) in *.
  destruct (orphan_blocks_pages Basic.transactions_query ("account_id", "accounts")
              (txn_transaction_id t) (txn_account_id t)
              (Pg.make_row (Pg.q_columns Basic.transactions_query)
                           (Basic.transaction_tuple t t1 t2))
              (Basic.transaction_tuple t t1 t2)
              eq_refl ltac:(discriminate)
              (transaction_tuple_key t t1 t2) (transaction_tuple_account t t1 t2)
              (Pg.paginate rows Pg.page_size) (Pg.working c) None T
              (stamped env Basic.transaction_tuple pre w).1 rows_post
              HT Hnew Horphan) as [e He].
  { rewrite paginate_concat. exact Happ. }
  { apply keyed_all_Forall2 in Hkeyed.
    clear -Hkeyed HF Hfirst.
    revert Hkeyed HF Hfirst.
    generalize (stamped env Basic.transaction_tuple pre w).1 as tuples.
    intros tuples Hkeyed. revert pre.
    induction Hkeyed as [|tu kr tuples krows Hk _ IH]; intros pre HF Hfirst;
      [constructor|].
    inversion HF as [|x ? xs ? (t1 & t2 & Hx) HF']; subst.
    rewrite fmap_cons in Hfirst. apply not_elem_of_cons in Hfirst as [Hne Hfirst].
    constructor; [|by apply (IH xs)].
    intros kr' Hkr'. assert (kr' = (txn_transaction_id x,
        Pg.make_row (Pg.q_columns Basic.transactions_query)
                    (Basic.transaction_tuple x t1 t2))) as -> by congruence.
    simpl. congruence. }
  destruct (execute_and_report_raises Basic.transactions_query LogTransactionsLoaded
              rows c self w1 e Hu He) as (c' & Hrun & Hcomm & Hclosed & Hab).
  exists e, c', w1. rewrite Hrun. repeat split; try done.
Qed.

Lemma load_transactions_orphan_fails_witness :
  exists e c' w',
    Basic.load_transactions env_orphan
      ([sample_transaction "t001" "a000"] ++ sample_transaction "t002" "a999" :: [])
      (connected_etl seeded_db) world0
    = (Raised e, set_conn (connected_etl seeded_db) (Some c'), w')
    /\ Pg.committed c' = Pg.committed (Pg.connect seeded_db)
    /\ Pg.aborted c' = true
    /\ Pg.working (Pg.rollback c') = Pg.committed (Pg.connect seeded_db).
Proof.
  refine (load_transactions_orphan_fails env_orphan (connected_etl seeded_db) world0
            (Pg.connect seeded_db) (default ∅ (seeded_db !! "transactions"))
            [sample_transaction "t001" "a000"] [] (sample_transaction "t002" "a999")
            eq_refl (conj eq_refl eq_refl) _ _ _ _).
  - reflexivity.
  - reflexivity.
  - apply (bool_decide_unpack _). vm_compute. exact I.
  - reflexivity.
Defined.

(** C5, as the claim states it, fails: transaction [t000] is stored under
    account [a000]; a batch that proposes [t000] again under account
    [a999], which is not stored, is loaded without error.  The statement
    takes the update path, whose SET list does not write [account_id],
    so the reference is never checked, and the other columns of the
    batch row are committed. *)
Lemma load_transactions_stored_id_not_checked :
  let r := Basic.load_transactions env150 [moved_transaction]
             (connected_etl seeded_db) world0 in
  let stored (col : string) :=
    match pg_conn r.1.2 with
    | Some c =>
        match Pg.committed c !! "transactions" with
        | Some T => match (T : Pg.table) !! "t000" with
                    | Some row => (row : Pg.row) !! col
                    | None => None
                    end
        | None => None
        end
    | None => None
    end in
  txn_account_id moved_transaction = "a999"
  /\ default ∅ (seeded_db !! "accounts") !! "a999" = None
  /\ r.1.1 = Returned RetNone
  /\ stdout r.2 = [LogTransactionsLoaded 1 0 1]
  /\ stored "name" = Some (PyStr "Refund")
  /\ stored "account_id" = Some (PyStr "a000").
Proof. cbv zeta. repeat split; vm_compute; reflexivity. Qed.

(* ===================================================================== *)
(** * Loading the same batch twice                                        *)
(* ===================================================================== *)

Lemma paginate_from_Forall2 {A B : Type} (P : A -> B -> Prop) (n : nat) l1 l2 :
  Forall2 P l1 l2 ->
  forall page1 page2 room,
    Forall2 P page1 page2 ->
    Forall2 (Forall2 P) (Pg.paginate_from n page1 room l1)
                        (Pg.paginate_from n page2 room l2).
Proof.
  induction 1 as [|x y l1 l2 Hxy _ IH]; intros page1 page2 room Hp; simpl.
  - inversion Hp; subst; repeat constructor; done.
  - destruct room as [|[|r]].
    + constructor.
    + constructor.
      * apply Forall2_app; [done|by constructor].
      * apply IH. constructor.
    + apply IH. apply Forall2_app; [done|by constructor].
Qed.

Lemma paginate_Forall2 {A B : Type} (P : A -> B -> Prop) l1 l2 n :
  Forall2 P l1 l2 ->
  Forall2 (Forall2 P) (Pg.paginate l1 n) (Pg.paginate l2 n).
Proof. intros H. apply paginate_from_Forall2; [done|constructor]. Qed.

Section Rerun.
Context {A : Type}.
Variable env : environment.
Variable q : Pg.upsert_query.
Variable tuple : A -> pydatetime -> pydatetime -> list pyval.
Variable key : A -> string.
Variable line : Z -> Z -> Z -> log_line.

Hypothesis tuple_key :
  forall x t1 t2,
    Pg.keyed q (tuple x t1 t2)
    = inr (key x, Pg.make_row (Pg.q_columns q) (tuple x t1 t2)).
Hypothesis conflict_is_pk :
  Pg.pk_column (Pg.schema (Pg.q_table q)) = Pg.q_conflict q.
Hypothesis returning : Pg.q_returning q = true.
Hypothesis stamps_only :
  forall x t1 t2 t1' t2' c,
    c <> "created_at" -> c <> "updated_at" ->
    Pg.make_row (Pg.q_columns q) (tuple x t1 t2) !! c
    = Pg.make_row (Pg.q_columns q) (tuple x t1' t2') !! c.
Hypothesis complete :
  forall x t1 t2 c,
    c ∈ Pg.q_set q -> is_Some (Pg.make_row (Pg.q_columns q) (tuple x t1 t2) !! c).
Hypothesis created_not_set : "created_at" ∉ Pg.q_set q.
Hypothesis fk_not_set :
  forall fk, Pg.fk_column (Pg.schema (Pg.q_table q)) = Some fk -> fk.1 ∉ Pg.q_set q.

Let merge := Pg.excluded_merge (Pg.q_set q).

Let load (xs : list A) : action pyreturn :=
  match xs with
  | [] => ret RetNone
  | _ :: _ =>
      c <-- the_connection ;;
      fun self w =>
        let '(rows, w1) := stamped env tuple xs w in
        Basic.execute_and_report q rows line c self w1
  end.

Let stamps_of (x : A) (tu : list pyval) : Prop :=
  exists t1 t2, tu = tuple x t1 t2.

Let proposes (x : A) (kr : string * Pg.row) : Prop :=
  exists t1 t2, kr = (key x, Pg.make_row (Pg.q_columns q) (tuple x t1 t2)).

(** Two rows proposed for one item. *)
Let twin (r1 r2 : Pg.row) : Prop :=
  exists x t1 t2 t1' t2',
    r1 = Pg.make_row (Pg.q_columns q) (tuple x t1 t2)
    /\ r2 = Pg.make_row (Pg.q_columns q) (tuple x t1' t2').

(** A page of tuples and the keyed rows of a statement that went through. *)
Let went_through (page : list (list pyval)) (kr : list (string * Pg.row)) : Prop :=
  Pg.keyed_all q page = inr kr /\ NoDup kr.*1.

Lemma stamped_stamps xs :
  forall w, Forall2 stamps_of xs (stamped env tuple xs w).1.
Proof.
  induction xs as [|x xs IH]; intros w; simpl; [constructor|].
  specialize (IH (now env (now env w).2).2).
  unfold now in *. simpl in *.
  destruct (stamped env tuple xs _) as [rows w3]. simpl in *.
  constructor; [by eexists _, _|done].
Qed.

Lemma stamps_keyed xs page :
  Forall2 stamps_of xs page ->
  exists kr, Pg.keyed_all q page = inr kr /\ Forall2 proposes xs kr.
Proof.
  induction 1 as [|x tu xs page (t1 & t2 & ->) _ (kr & Hk & HF)]; simpl.
  - exists []. split; [done|constructor].
  - rewrite tuple_key, Hk. eexists. split; [reflexivity|].
    constructor; [by eexists _, _|done].
Qed.

Lemma proposes_keys' xs kr :
  Forall2 proposes xs kr -> kr.*1 = key <$> xs.
Proof.
  induction 1 as [|x p xs kr (t1 & t2 & ->) _ IH]; [done|].
  rewrite !fmap_cons. simpl. by rewrite IH.
Qed.

Lemma proposes_twin xs kr1 kr2 k :
  Forall2 proposes xs kr1 -> Forall2 proposes xs kr2 ->
  Forall2 twin (Pg.rows_for k kr1) (Pg.rows_for k kr2).
Proof.
  intros H1. revert kr2.
  induction H1 as [|x p1 xs kr1 (t1 & t2 & ->) _ IH]; intros kr2 H2.
  - inversion H2; subst. constructor.
  - inversion H2 as [|? p2 ? kr2' (t1' & t2' & ->) H2']; subst.
    unfold Pg.rows_for in *.
    destruct (decide (key x = k)) as [Hk|Hk].
    + rewrite !filter_cons_True by done. rewrite !fmap_cons. simpl.
      constructor; [by eexists x, t1, t2, t1', t2'|by apply IH].
    + rewrite !filter_cons_False by done. by apply IH.
Qed.

Lemma replay_off_set rs :
  forall y z c,
    Pg.replay merge (Some y) rs = Some z -> c ∉ Pg.q_set q -> z !! c = y !! c.
Proof.
  unfold Pg.replay.
  induction rs as [|r rs IH]; intros y z c; simpl.
  - by intros [= ->].
  - intros H Hc. rewrite (IH _ _ _ H Hc). unfold merge.
    rewrite excluded_merge_lookup. by destruct (decide (c ∈ Pg.q_set q)).
Qed.

(** Playing a batch onto the result of playing its twin changes no
    column but [updated_at]. *)
Lemma replay_twice rs1 rs2 (o : option Pg.row) :
  Forall2 twin rs1 rs2 ->
  match Pg.replay merge o rs1 with
  | Some y =>
      exists z, Pg.replay merge (Some y) rs2 = Some z
                /\ forall c, c <> "updated_at" -> z !! c = y !! c
  | None => Pg.replay merge None rs2 = None
  end.
Proof.
  intros HF.
  destruct rs1 as [|r0 rs0] using rev_ind.
  { inversion HF; subst. simpl. destruct o as [y|]; [by exists y|done]. }
  clear IHrs0.
  apply Forall2_app_inv_l in HF as (k1 & k2 & HF1 & HF2 & ->).
  inversion HF2 as [|? r2 ? ? Htwin Hnil]; subst. inversion Hnil; subst.
  rewrite replay_app. simpl.
  set (y := Pg.upd merge (Pg.replay merge o rs0) r0).
  destruct (replay_is_Some merge (Some y) k1) as [z Hz]; [left; eauto|].
  exists (merge z r2). split.
  - rewrite replay_app, Hz. reflexivity.
  - intros c Hc. unfold merge at 1. rewrite excluded_merge_lookup.
    destruct (decide (c ∈ Pg.q_set q)) as [Hin|Hout].
    + destruct Htwin as (x & t1 & t2 & t1' & t2' & -> & ->).
      assert (c <> "created_at") as Hcr by (intros ->; done).
      destruct (complete x t1' t2' c Hin) as [v Hv]. rewrite Hv.
      rewrite (stamps_only x t1' t2' t1 t2 c Hcr Hc) in Hv.
      unfold y, Pg.upd.
      destruct (Pg.replay merge o rs0) as [old|]; [|by rewrite Hv].
      unfold merge. rewrite excluded_merge_lookup, decide_True by done.
      by rewrite Hv.
    + by apply (replay_off_set k1).
Qed.

(** What pages that all went through have done. *)
Lemma run_pages_inv pages :
  forall db cur db' cur' (T : Pg.table),
    Pg.run_pages db cur q pages = inr (db', cur') ->
    db !! Pg.q_table q = Some T ->
    exists kpages T',
      Forall2 went_through pages kpages
      /\ db' !! Pg.q_table q = Some T'
      /\ (forall k, T' !! k
                    = Pg.replay merge (T !! k) (Pg.rows_for k (concat kpages)))
      /\ (forall other, other <> Pg.q_table q -> db' !! other = db !! other)
      /\ (pages <> [] -> exists result, cur' = Some result).
Proof.
  induction pages as [|page pages IH]; intros db cur db' cur' T; simpl.
  - intros [= <- <-] HT. exists [], T. repeat split; [constructor|done..].
  - destruct (Pg.exec_upsert db q page) as [e|[db1 cur1]] eqn:E; [done|].
    intros Hrun HT.
    apply exec_upsert_inv in E
      as (T0 & rows & HT0 & Hkeyed & Hnd & Hfk & -> & Hcur1).
    assert (T0 = T) as -> by congruence.
    destruct (IH _ _ _ _ (Pg.apply_rows merge T rows) Hrun)
      as (kpages & T' & HF & HT' & Hrows & Hother & Hcur).
    { by rewrite lookup_insert_eq. }
    exists (rows :: kpages), T'. split; [by constructor|]. split; [done|].
    split; [|split].
    + intros k. rewrite Hrows. simpl.
      rewrite rows_for_app, replay_app. by rewrite apply_rows_lookup.
    + intros other Hne. rewrite Hother by done. by rewrite lookup_insert_ne.
    + intros _. destruct pages as [|p ps].
      * simpl in Hrun. injection Hrun as <- <-. rewrite Hcur1, returning. eauto.
      * by apply Hcur.
Qed.

(** Pages of rows whose keys are all stored go through as updates. *)
Lemma run_pages_stored pages kpages :
  Forall2 went_through pages kpages ->
  forall db cur (T : Pg.table),
    db !! Pg.q_table q = Some T ->
    (forall k, k ∈ (concat kpages).*1 -> is_Some (T !! k)) ->
    exists db' T' cur',
      Pg.run_pages db cur q pages = inr (db', cur')
      /\ db' !! Pg.q_table q = Some T'
      /\ dom T' = dom T
      /\ (forall k, T' !! k
                    = Pg.replay merge (T !! k) (Pg.rows_for k (concat kpages)))
      /\ (forall other, other <> Pg.q_table q -> db' !! other = db !! other)
      /\ (pages = [] -> cur' = cur)
      /\ (pages <> [] -> exists n : nat, cur' = Some (replicate n false)).
Proof.
  induction 1 as [|page kr pages kpages [Hkeyed Hnd] HF IH];
    intros db cur T HT Hstored.
  - exists db, T, cur. simpl. repeat split; done.
  - simpl in Hstored.
    assert (forall k, k ∈ kr.*1 -> is_Some (T !! k)) as Hhere.
    { intros k Hk. apply Hstored. rewrite fmap_app. apply elem_of_app. by left. }
    set (T1 := Pg.apply_rows merge T kr).
    assert (dom T1 = dom T) as Hdom.
    { unfold T1. rewrite apply_rows_dom. apply set_eq. intros k.
      rewrite elem_of_union, elem_of_list_to_set, elem_of_dom. split; [|by left].
      intros [?|Hk]; [done|by apply Hhere]. }
    assert ((Pg.flags_of T kr).*2 = replicate (length kr) false) as Hflags.
    { clear -Hhere. induction kr as [|[k r] kr IH]; [done|].
      unfold Pg.flags_of in *. rewrite !fmap_cons. simpl. f_equal.
      - apply bool_decide_eq_false_2.
        destruct (Hhere k) as [old Hold]; [|by rewrite Hold].
        rewrite fmap_cons. apply elem_of_cons. by left.
      - apply IH. intros k' Hk'. apply Hhere.
        rewrite fmap_cons. apply elem_of_cons. by right. }
    assert (Pg.exec_upsert db q page
            = inr (<[Pg.q_table q := T1]> db, Some (replicate (length kr) false)))
      as Hexec.
    { rewrite (exec_upsert_ok q _ _ T kr); try done.
      - fold merge. fold T1. by rewrite returning, Hflags.
      - apply fk_violation_none_intro. intros fk k Hcol Hk.
        rewrite flags_of_keys in Hk.
        destruct (Hhere k Hk) as [old Hold].
        apply list_elem_of_fmap_1 in Hk as ([k' r] & -> & Hin). simpl in *.
        apply (fk_holds_update db fk (Pg.q_set q) T _ k' old r Hold);
          [|by apply fk_not_set].
        fold merge. rewrite apply_rows_lookup.
        erewrite rows_for_NoDup; [|done|exact Hin]. simpl. by rewrite Hold. }
    destruct (IH (<[Pg.q_table q := T1]> db) (Some (replicate (length kr) false)) T1)
      as (db' & T' & cur' & Hrun & HT' & Hdom' & Hrows & Hother & Hnil & Hcons).
    { by rewrite lookup_insert_eq. }
    { intros k Hk. apply elem_of_dom. rewrite Hdom. apply elem_of_dom.
      apply Hstored. rewrite fmap_app. apply elem_of_app. by right. }
    exists db', T', cur'. simpl. rewrite Hexec. split; [done|]. split; [done|].
    split; [by rewrite Hdom', Hdom|]. split; [|split; [|split]].
    + intros k. rewrite Hrows. rewrite rows_for_app, replay_app.
      unfold T1. by rewrite apply_rows_lookup.
    + intros other Hne. rewrite Hother by done. by rewrite lookup_insert_ne.
    + done.
    + intros _. destruct pages as [|p ps].
      * inversion HF; subst. rewrite Hnil by done. eauto.
      * by apply Hcons.
Qed.


Lemma execute_and_report_inv rows c self w r self1 w1 :
  Pg.usable c ->
  Basic.execute_and_report q rows line c self w = (Returned r, self1, w1) ->
  exists db' result,
    Pg.run_pages (Pg.working c) None q (Pg.paginate rows Pg.page_size)
    = inr (db', Some result)
    /\ self1 = set_conn self (Some (Pg.mk_connection db' db' false false)).
Proof.
  intros Hu. unfold Basic.execute_and_report, Pg.execute_values.
  pose proof (execute_pages_run q (Pg.paginate rows Pg.page_size) c None Hu) as H.
  destruct (Pg.run_pages (Pg.working c) None q (Pg.paginate rows Pg.page_size))
    as [e|[db' [result|]]].
  - destruct H as (c' & -> & _). discriminate.
  - rewrite H. intros [= <- <- <-]. by exists db', result.
  - rewrite H. discriminate.
Qed.

Lemma pages_proposed xpages pages kpages :
  Forall2 (Forall2 stamps_of) xpages pages ->
  Forall2 went_through pages kpages ->
  Forall2 (Forall2 proposes) xpages kpages.
Proof.
  intros H. revert kpages.
  induction H as [|xp page xpages pages Hst _ IH]; intros kpages Hw.
  - inversion Hw; subst. constructor.
  - inversion Hw as [|? kr ? kpages' [Hk _] Hw']; subst.
    constructor; [|by apply IH].
    destruct (stamps_keyed _ _ Hst) as (kr' & Hk' & HF). congruence.
Qed.

Lemma pages_again xpages pages1 kpages1 pages2 :
  Forall2 (Forall2 stamps_of) xpages pages1 ->
  Forall2 went_through pages1 kpages1 ->
  Forall2 (Forall2 stamps_of) xpages pages2 ->
  exists kpages2,
    Forall2 went_through pages2 kpages2
    /\ Forall2 (Forall2 proposes) xpages kpages2.
Proof.
  intros H1. revert kpages1 pages2.
  induction H1 as [|xp page1 xpages pages1 Hst1 _ IH]; intros kpages1 pages2 Hw H2.
  - inversion H2; subst. exists []. split; constructor.
  - inversion Hw as [|? kr1 ? kpages1' [Hk1 Hnd1] Hw']; subst.
    inversion H2 as [|? page2 ? pages2' Hst2 H2']; subst.
    destruct (IH _ _ Hw' H2') as (kpages2 & Hw2 & HF2).
    destruct (stamps_keyed _ _ Hst2) as (kr2 & Hk2 & HP2).
    destruct (stamps_keyed _ _ Hst1) as (kr1' & Hk1' & HP1).
    assert (kr1' = kr1) as -> by congruence.
    exists (kr2 :: kpages2). split; constructor; try done.
    split; [done|].
    by rewrite (proposes_keys' _ _ HP2), <- (proposes_keys' _ _ HP1).
Qed.

Lemma proposes_concat xpages kpages :
  Forall2 (Forall2 proposes) xpages kpages ->
  Forall2 proposes (concat xpages) (concat kpages).
Proof.
  induction 1; simpl; [constructor|]. by apply Forall2_app.
Qed.

Lemma count_true_replicate n : count_true (replicate n false) = 0.
Proof.
  unfold count_true. induction n as [|n IH]; simpl; [done|].
  rewrite filter_cons_False by done. exact IH.
Qed.

(** A loader that has gone through goes through again on the same
    batch: every row is then an update, the table keeps its keys, and
    no column other than [updated_at] changes. *)
Lemma load_twice xs self w c (T0 : Pg.table) self1 w1 :
  pg_conn self = Some c ->
  Pg.usable c ->
  Pg.working c !! Pg.q_table q = Some T0 ->
  load xs self w = (Returned RetNone, self1, w1) ->
  exists c1 F1 self2 w2 c2 F2,
    pg_conn self1 = Some c1
    /\ Pg.working c1 !! Pg.q_table q = Some F1
    /\ load xs self1 w1 = (Returned RetNone, self2, w2)
    /\ pg_conn self2 = Some c2
    /\ Pg.working c2 !! Pg.q_table q = Some F2
    /\ (xs <> [] -> Pg.committed c2 = Pg.working c2)
    /\ size F2 = size F1
    /\ (forall k row1, F1 !! k = Some row1 ->
          exists row2, F2 !! k = Some row2
                       /\ forall col, col <> "updated_at" -> row2 !! col = row1 !! col)
    /\ (forall other, other <> Pg.q_table q ->
          Pg.working c2 !! other = Pg.working c1 !! other)
    /\ (xs = [] -> w2 = w1)
    /\ (xs <> [] ->
        exists n, 0 <= n /\ stdout w2 = stdout w1 ++ [line n 0 n]).
Proof.
  intros Hconn Hu HT0 Hload.
  destruct xs as [|x0 xs0].
  { simpl in Hload. injection Hload as <- <-.
    exists c, T0, self, w, c, T0. repeat split; try done.
    intros k row1 Hk. by exists row1. }
  unfold load in Hload. unfold bind, the_connection in Hload.
  rewrite Hconn in Hload. cbv beta iota in Hload.
  set (xs := x0 :: xs0) in *.
  assert (xs <> []) as Hne by done.
  pose proof (stamped_stamps xs w) as Hst1.
  destruct (stamped env tuple xs w) as [rows1 w1'] eqn:E1. simpl in Hst1.
  apply (execute_and_report_inv _ _ _ _ _ _ _ Hu) in Hload
    as (db1 & result1 & Hrun1 & ->).
  destruct (run_pages_inv _ _ _ _ _ T0 Hrun1 HT0)
    as (kpages1 & F1 & Hw1 & HF1 & Hrows1 & Hother1 & _).
  set (xpages := Pg.paginate xs Pg.page_size).
  pose proof (paginate_Forall2 _ _ _ Pg.page_size Hst1) as Hpg1. fold xpages in Hpg1.
  pose proof (pages_proposed _ _ _ Hpg1 Hw1) as HP1.
  (* the second call *)
  set (c1 := Pg.mk_connection db1 db1 false false).
  pose proof (stamped_stamps xs w1) as Hst2.
  pose proof (stamped_world env tuple xs w1) as (Hout2 & _ & _ & _ & Hlen2).
  destruct (stamped env tuple xs w1) as [rows2 w2'] eqn:E2. simpl in Hst2, Hout2, Hlen2.
  pose proof (paginate_Forall2 _ _ _ Pg.page_size Hst2) as Hpg2. fold xpages in Hpg2.
  destruct (pages_again _ _ _ _ Hpg1 Hw1 Hpg2) as (kpages2 & Hw2 & HP2).
  assert ((concat kpages2).*1 = (concat kpages1).*1) as Hsame.
  { rewrite (proposes_keys' _ _ (proposes_concat _ _ HP2)).
    by rewrite (proposes_keys' _ _ (proposes_concat _ _ HP1)). }
  destruct (run_pages_stored _ _ Hw2 db1 None F1 HF1)
    as (db2 & F2 & cur2 & Hrun2 & HF2 & Hdom & Hrows2 & Hother2 & _ & Hcur2).
  { intros k Hk. rewrite Hsame in Hk. rewrite Hrows1.
    apply replay_is_Some. right. by apply rows_for_nonempty. }
  assert (Pg.paginate rows2 Pg.page_size <> []) as Hpages2.
  { intros Hnil. pose proof (paginate_concat rows2) as Hcat.
    rewrite Hnil in Hcat. simpl in Hcat. subst rows2. done. }
  destruct (Hcur2 Hpages2) as [n ->].
  exists c1, F1,
    (set_conn (set_conn self (Some c1))
       (Some (Pg.mk_connection db2 db2 false false))),
    (say (line (Z.of_nat n) 0 (Z.of_nat n)) w2'),
    (Pg.mk_connection db2 db2 false false), F2.
  split; [done|]. split; [done|]. split.
  { unfold load, xs. unfold bind, the_connection. simpl pg_conn. cbv beta iota.
    fold xs. rewrite E2.
    rewrite (execute_and_report_returns q line rows2 c1 _ w2' db2
               (replicate n false)); [|done|exact Hrun2].
    rewrite count_true_replicate, length_replicate, Z.sub_0_r. reflexivity. }
  split; [done|]. split; [done|]. split; [done|]. split.
  { by rewrite <- !size_dom, Hdom. }
  split.
  { intros k row1 Hk.
    pose proof (replay_twice (Pg.rows_for k (concat kpages1))
                  (Pg.rows_for k (concat kpages2)) (T0 !! k)
                  (proposes_twin _ _ _ k (proposes_concat _ _ HP1)
                                 (proposes_concat _ _ HP2))) as Htw.
    rewrite <- Hrows1, Hk in Htw. destruct Htw as (z & Hz & Hcols).
    exists z. split; [|done]. by rewrite Hrows2, Hk. }
  split; [exact Hother2|]. split; [done|].
  intros _. exists (Z.of_nat n). split; [lia|].
  unfold say. simpl. by rewrite Hout2.
Qed.

End Rerun.

Lemma account_stamps_only a t1 t2 t1' t2' col :
  col <> "created_at" -> col <> "updated_at" ->
  Pg.make_row (Pg.q_columns Basic.accounts_query) (Basic.account_tuple a t1 t2) !! col
  = Pg.make_row (Pg.q_columns Basic.accounts_query) (Basic.account_tuple a t1' t2') !! col.
Proof.
  intros H1 H2. unfold Pg.make_row, Basic.account_tuple.
  cbn [Pg.q_columns Basic.accounts_query zip zip_with list_to_map foldr uncurry fst snd].
  rewrite !lookup_insert. repeat (case_decide; [done|]). done.
Qed.

Lemma transaction_stamps_only t t1 t2 t1' t2' col :
  col <> "created_at" -> col <> "updated_at" ->
  Pg.make_row (Pg.q_columns Basic.transactions_query)
              (Basic.transaction_tuple t t1 t2) !! col
  = Pg.make_row (Pg.q_columns Basic.transactions_query)
                (Basic.transaction_tuple t t1' t2') !! col.
Proof.
  intros H1 H2. unfold Pg.make_row, Basic.transaction_tuple.
  cbn [Pg.q_columns Basic.transactions_query zip zip_with list_to_map foldr uncurry
       fst snd].
  rewrite !lookup_insert. repeat (case_decide; [done|]). done.
Qed.

Lemma account_complete a t1 t2 col :
  col ∈ Pg.q_set Basic.accounts_query ->
  is_Some (Pg.make_row (Pg.q_columns Basic.accounts_query)
                       (Basic.account_tuple a t1 t2) !! col).
Proof. solve_in_columns. Qed.

Lemma transaction_complete t t1 t2 col :
  col ∈ Pg.q_set Basic.transactions_query ->
  is_Some (Pg.make_row (Pg.q_columns Basic.transactions_query)
                       (Basic.transaction_tuple t t1 t2) !! col).
Proof. solve_in_columns. Qed.

(** C2. When a loader of the basic script has gone through on a batch,
    calling it again on the same batch goes through as well; the table
    then holds as many rows as after the first call, every stored row
    agrees with what it was after the first call on every column but
    [updated_at], and the other tables are as they were.  For a non-empty
    batch the second call commits and prints [inserted] = 0 and an
    [updated] count that is not negative; for an empty batch it does
    nothing at all. *)
Theorem upsert_twice_is_idempotent
    (env : environment) (self : etl) (w : world) (c : Pg.connection)
    (self1 : etl) (w1 : world) :
  pg_conn self = Some c ->
  Pg.usable c ->
  (forall (accounts : list Account) (T0 : Pg.table),
     Pg.working c !! "accounts" = Some T0 ->
     Basic.load_accounts env accounts self w = (Returned RetNone, self1, w1) ->
     exists c1 F1 self2 w2 c2 F2,
       pg_conn self1 = Some c1
       /\ Pg.working c1 !! "accounts" = Some F1
       /\ Basic.load_accounts env accounts self1 w1 = (Returned RetNone, self2, w2)
       /\ pg_conn self2 = Some c2
       /\ Pg.working c2 !! "accounts" = Some F2
       /\ (accounts <> [] -> Pg.committed c2 = Pg.working c2)
       /\ size F2 = size F1
       /\ (forall k row1, F1 !! k = Some row1 ->
             exists row2,
               F2 !! k = Some row2
               /\ forall col, col <> "updated_at" -> row2 !! col = row1 !! col)
       /\ (forall other, other <> "accounts" ->
             Pg.working c2 !! other = Pg.working c1 !! other)
       /\ (accounts = [] -> w2 = w1)
       /\ (accounts <> [] ->
           exists n, 0 <= n /\ stdout w2 = stdout w1 ++ [LogAccountsLoaded n 0 n]))
  /\ (forall (transactions : list Transaction) (T0 : Pg.table),
        Pg.working c !! "transactions" = Some T0 ->
        Basic.load_transactions env transactions self w = (Returned RetNone, self1, w1) ->
        exists c1 F1 self2 w2 c2 F2,
          pg_conn self1 = Some c1
          /\ Pg.working c1 !! "transactions" = Some F1
          /\ Basic.load_transactions env transactions self1 w1
             = (Returned RetNone, self2, w2)
          /\ pg_conn self2 = Some c2
          /\ Pg.working c2 !! "transactions" = Some F2
          /\ (transactions <> [] -> Pg.committed c2 = Pg.working c2)
          /\ size F2 = size F1
          /\ (forall k row1, F1 !! k = Some row1 ->
                exists row2,
                  F2 !! k = Some row2
                  /\ forall col, col <> "updated_at" -> row2 !! col = row1 !! col)
          /\ (forall other, other <> "transactions" ->
                Pg.working c2 !! other = Pg.working c1 !! other)
          /\ (transactions = [] -> w2 = w1)
          /\ (transactions <> [] ->
              exists n, 0 <= n
                        /\ stdout w2 = stdout w1 ++ [LogTransactionsLoaded n 0 n])).
Proof.
  intros Hconn Hu. split.
  - intros accounts T0 HT0 Hload.
    apply (load_twice env Basic.accounts_query Basic.account_tuple acc_account_id
             LogAccountsLoaded account_tuple_key eq_refl eq_refl
             account_stamps_only account_complete)
      with (self := self) (c := c) (T0 := T0) (w := w);
      try done; try solve_not_in_list.
  - intros transactions T0 HT0 Hload.
    apply (load_twice env Basic.transactions_query Basic.transaction_tuple
             txn_transaction_id LogTransactionsLoaded transaction_tuple_key
             eq_refl eq_refl transaction_stamps_only transaction_complete)
      with (self := self) (c := c) (T0 := T0) (w := w);
      try done; try solve_not_in_list.
    intros fk [= <-]. apply account_id_not_set.
Qed.

Lemma upsert_twice_is_idempotent_witness :
  let first := Basic.load_accounts env150 (sample_accounts 2)
                 (connected_etl empty_tables) world0 in
  exists c1 F1 self2 w2 c2 F2,
    pg_conn first.1.2 = Some c1
    /\ Pg.working c1 !! "accounts" = Some F1
    /\ Basic.load_accounts env150 (sample_accounts 2) first.1.2 first.2
       = (Returned RetNone, self2, w2)
    /\ pg_conn self2 = Some c2
    /\ Pg.working c2 !! "accounts" = Some F2
    /\ (sample_accounts 2 <> [] -> Pg.committed c2 = Pg.working c2)
    /\ size F2 = size F1
    /\ (forall k row1, F1 !! k = Some row1 ->
          exists row2,
            F2 !! k = Some row2
            /\ forall col, col <> "updated_at" -> row2 !! col = row1 !! col)
    /\ (forall other, other <> "accounts" ->
          Pg.working c2 !! other = Pg.working c1 !! other)
    /\ (sample_accounts 2 = [] -> w2 = first.2)
    /\ (sample_accounts 2 <> [] ->
        exists n, 0 <= n /\ stdout w2 = stdout first.2 ++ [LogAccountsLoaded n 0 n]).
Proof.
  refine (proj1 (upsert_twice_is_idempotent env150 (connected_etl empty_tables) world0
                   (Pg.connect empty_tables) _ _ eq_refl (conj eq_refl eq_refl))
                (sample_accounts 2) ∅ eq_refl _).
  vm_compute. reflexivity.
Defined.
